(** * A model of the chat widget of [static/script.js]

    The script wires a send button and a text input to [sendMessage], which
    posts the trimmed text to a chat backend and animates the reply into the
    chat log.  The page (DOM elements, timers, suspended [async] frames) is
    modelled as an explicit state; every event-loop task (a user action, a
    timer tick, the settling of a promise) is one step on that state. *)

From Stdlib Require Import String Ascii NArith ZArith DecimalString List.
From stdpp Require Import gmap list.

Set Default Proof Using "Type".
Set Warnings "-register-all".

(** ** Strings

    A JavaScript string is a sequence of UTF-16 code units. *)

Definition jsstring : Type := list N.

Definition js (s : string) : jsstring :=
  map N_of_ascii (list_ascii_of_string s).

(** [String.prototype.charAt]: the code unit at position [i] as a string of
    length one, the empty string out of range. *)
Definition charAt (s : jsstring) (i : nat) : jsstring :=
  match s !! i with
  | Some c => [c]
  | None => []
  end.

(** [String.prototype.repeat]. *)
Definition repeat_str (s : jsstring) (n : nat) : jsstring :=
  concat (replicate n s).

(** White space and line terminators of ECMAScript, the code units
    [String.prototype.trim] strips. *)
Definition is_js_space (c : N) : bool :=
  ((c =? 9) || (c =? 10) || (c =? 11) || (c =? 12) || (c =? 13) || (c =? 32)
   || (c =? 160) || (c =? 5760) || ((8192 <=? c) && (c <=? 8202))
   || (c =? 8232) || (c =? 8233) || (c =? 8239) || (c =? 8287)
   || (c =? 12288) || (c =? 65279))%N.

Fixpoint trim_start (s : jsstring) : jsstring :=
  match s with
  | c :: s' => if is_js_space c then trim_start s' else s
  | [] => []
  end.

Definition trim (s : jsstring) : jsstring :=
  rev (trim_start (rev (trim_start s))).

(** ASCII white space of HTML: tab, line feed, form feed, carriage return
    and space.  Text without any of these is laid out as it is written. *)
Definition is_ascii_space (c : N) : bool :=
  ((c =? 9) || (c =? 10) || (c =? 12) || (c =? 13) || (c =? 32))%N.

Definition solid (s : jsstring) : bool :=
  forallb (fun c => negb (is_ascii_space c)) s.

(** ** Values

    What the engine leaves open is taken as a parameter: the number type with
    its truthiness and its decimal rendering, the engine-defined message
    texts of the two [TypeError]s the script can provoke, and the layout of
    text that contains white space, which depends on the page's stylesheet
    (the [white-space] property) and not on the script. *)

Class Engine := {
  number : Type;
  (** false exactly for [+0], [-0] and [NaN] *)
  number_truthy : number -> bool;
  number_to_string : number -> jsstring;
  (** message of the [TypeError] raised by reading the named property of
      [null] *)
  null_read_message : jsstring -> jsstring;
  (** message of the [TypeError] raised when an object cannot be converted
      to a primitive value *)
  to_primitive_message : jsstring;
  (** message of the [TypeError] raised by calling the named property when
      it is not a function *)
  not_a_function_message : jsstring -> jsstring;
  (** the text the [innerText] getter gives for an element with the given
      content (a line feed standing for a line break), when that content
      contains white space: the content as it is laid out *)
  styled_text : jsstring -> jsstring
}.

Inductive outcome (A : Type) : Type :=
  | Ok (a : A)
  | Throw (message : jsstring).
Arguments Ok {A} a.
Arguments Throw {A} message.

Section Widget.
Context `{Engine}.

(** Values that [JSON.parse] produces, and [undefined] for absent fields. *)
Inductive jsval : Type :=
  | JUndefined
  | JNull
  | JBool (b : bool)
  | JNum (n : number)
  | JStr (s : jsstring)
  | JArr (items : list jsval)
  | JObj (fields : list (jsstring * jsval)).

(** [ToBoolean]. *)
Definition truthy (v : jsval) : bool :=
  match v with
  | JUndefined | JNull => false
  | JBool b => b
  | JNum n => number_truthy n
  | JStr s => match s with [] => false | _ => true end
  | JArr _ | JObj _ => true
  end.

(** The own property [k] of an object whose properties are [fields]; a name
    listed twice counts by its first entry. *)
Fixpoint own_field (fields : list (jsstring * jsval)) (k : jsstring)
  : option jsval :=
  match fields with
  | [] => None
  | (k', v) :: rest => if decide (k' = k) then Some v else own_field rest k
  end.

(** Property read [v.k] for a name [k] that no built-in prototype defines
    (the script reads [answer], [response] and [source]): the own field of
    an object, [undefined] on every other value, a [TypeError] on [null] and
    [undefined]. *)
Definition read_field (v : jsval) (k : jsstring) : outcome jsval :=
  match v with
  | JUndefined | JNull => Throw (null_read_message k)
  | JObj fields => Ok (default JUndefined (own_field fields k))
  | _ => Ok JUndefined
  end.

Definition join_outcomes (sep : jsstring)
  : list (outcome jsstring) -> outcome jsstring :=
  fix go l :=
    match l with
    | [] => Ok []
    | [r] => r
    | r :: rest =>
        match r with
        | Throw m => Throw m
        | Ok s => match go rest with
                  | Throw m => Throw m
                  | Ok t => Ok (s ++ sep ++ t)
                  end
        end
    end.

(** [ToString], as a template literal applies it.  An object parsed from
    JSON has no callable [toString] of its own: it inherits
    [Object.prototype.toString] unless an own field shadows it, in which
    case the conversion fails. *)
Fixpoint to_string (v : jsval) : outcome jsstring :=
  match v with
  | JUndefined => Ok (js "undefined")
  | JNull => Ok (js "null")
  | JBool true => Ok (js "true")
  | JBool false => Ok (js "false")
  | JNum n => Ok (number_to_string n)
  | JStr s => Ok s
  | JArr items =>
      join_outcomes (js ",")
        (map (fun x => match x with
                       | JUndefined | JNull => Ok []
                       | _ => to_string x
                       end) items)
  | JObj fields =>
      match own_field fields (js "toString") with
      | Some _ => Throw to_primitive_message
      | None => Ok (js "[object Object]")
      end
  end.

(** ** The page *)

(** An element of the document, as far as the script touches it.  [ownText]
    is the text the [innerText] setter stored; the setter replaces every
    child, so [kids] are the elements appended since. *)
Record element := Element {
  tagName : jsstring;
  className : jsstring;
  ownText : jsstring;
  kids : list nat;
  marginLeft : jsstring
}.

(** The closure an interval timer runs. *)
Inductive timer_callback : Type :=
  (** [addTypingIndicator], line 29: the [dots] span and the counter [i] *)
  | DotsTick (dots : nat) (i : nat)
  (** [typeText], lines 38-43: target element, text, the counter [i] and the
      [resolve] function of the promise it returned *)
  | RevealTick (target : nat) (text : jsval) (i : nat) (promise : nat).

Record timer := Timer {
  callback : timer_callback;
  period : nat
}.

(** A [sendMessage] invocation suspended at one of its three [await]s, with
    the variables its continuation still uses. *)
Inductive frame : Type :=
  (** line 61, awaiting [fetch] *)
  | AwaitFetch (text : jsstring) (typing_el typing_int : nat)
  (** line 66, awaiting [res.json()] *)
  | AwaitJson (typing_el typing_int : nat)
  (** line 76, awaiting [typeText] *)
  | AwaitReveal (data : jsval) (botEl : nat) (typing_el typing_int : nat).

(** The request [fetch] is given (lines 61-65); [payload] is the value whose
    [JSON.stringify] is the body. *)
Record request := Request {
  url : jsstring;
  method : jsstring;
  content_type : jsstring;
  payload : jsval
}.

(** Effects on the page, recorded in the order they happen. *)
Inductive action : Type :=
  | ActSendDisabled (b : bool)
  | ActAppend (el : nat)            (* [chatBox.appendChild(el)] *)
  | ActRemove (el : nat)            (* [el.remove()] *)
  | ActScroll                       (* [chatBox.scrollTop = chatBox.scrollHeight] *)
  | ActSetInterval (tid : nat)
  | ActClearInterval (tid : nat)
  | ActFetch (promise : nat) (req : request)
  | ActResolve (promise : nat).

Record page := Page {
  dom : gmap nat element;           (* every element created so far *)
  next_el : nat;
  chat_box : list nat;              (* children of [chatBox], in order *)
  input_value : jsstring;           (* [input.value] *)
  send_disabled : bool;             (* [sendBtn.disabled] *)
  send_bg : jsstring;               (* [sendBtn.style.backgroundColor] *)
  timers : gmap nat timer;          (* the active intervals *)
  next_timer : nat;
  frames : gmap nat frame;          (* suspended invocations, by awaited promise *)
  next_promise : nat;
  history : list action             (* oldest first *)
}.

Definition set_dom (f : gmap nat element -> gmap nat element) (st : page) :=
  Page (f (dom st)) (next_el st) (chat_box st) (input_value st)
    (send_disabled st) (send_bg st) (timers st) (next_timer st) (frames st)
    (next_promise st) (history st).
Definition set_next_el (n : nat) (st : page) :=
  Page (dom st) n (chat_box st) (input_value st)
    (send_disabled st) (send_bg st) (timers st) (next_timer st) (frames st)
    (next_promise st) (history st).
Definition set_chat_box (f : list nat -> list nat) (st : page) :=
  Page (dom st) (next_el st) (f (chat_box st)) (input_value st)
    (send_disabled st) (send_bg st) (timers st) (next_timer st) (frames st)
    (next_promise st) (history st).
Definition set_input_value (v : jsstring) (st : page) :=
  Page (dom st) (next_el st) (chat_box st) v
    (send_disabled st) (send_bg st) (timers st) (next_timer st) (frames st)
    (next_promise st) (history st).
Definition set_send_disabled (b : bool) (st : page) :=
  Page (dom st) (next_el st) (chat_box st) (input_value st)
    b (send_bg st) (timers st) (next_timer st) (frames st)
    (next_promise st) (history st).
Definition set_send_bg (c : jsstring) (st : page) :=
  Page (dom st) (next_el st) (chat_box st) (input_value st)
    (send_disabled st) c (timers st) (next_timer st) (frames st)
    (next_promise st) (history st).
Definition set_timers (f : gmap nat timer -> gmap nat timer) (st : page) :=
  Page (dom st) (next_el st) (chat_box st) (input_value st)
    (send_disabled st) (send_bg st) (f (timers st)) (next_timer st) (frames st)
    (next_promise st) (history st).
Definition set_next_timer (n : nat) (st : page) :=
  Page (dom st) (next_el st) (chat_box st) (input_value st)
    (send_disabled st) (send_bg st) (timers st) n (frames st)
    (next_promise st) (history st).
Definition set_frames (f : gmap nat frame -> gmap nat frame) (st : page) :=
  Page (dom st) (next_el st) (chat_box st) (input_value st)
    (send_disabled st) (send_bg st) (timers st) (next_timer st) (f (frames st))
    (next_promise st) (history st).
Definition set_next_promise (n : nat) (st : page) :=
  Page (dom st) (next_el st) (chat_box st) (input_value st)
    (send_disabled st) (send_bg st) (timers st) (next_timer st) (frames st)
    n (history st).
Definition record (a : action) (st : page) :=
  Page (dom st) (next_el st) (chat_box st) (input_value st)
    (send_disabled st) (send_bg st) (timers st) (next_timer st) (frames st)
    (next_promise st) (history st ++ [a]).

(** The page before any interaction: an empty log, an empty input, the send
    button enabled. *)
Definition initial : page :=
  Page ∅ 0 [] [] false [] ∅ 0 ∅ 0 [].

(** ** Computations on the page

    A computation threads the page and either returns or throws. *)

Definition M (A : Type) : Type := page -> outcome A * page.

Definition ret {A} (a : A) : M A := fun st => (Ok a, st).

Definition bind {A B} (m : M A) (k : A -> M B) : M B :=
  fun st =>
    match m st with
    | (Ok a, st') => k a st'
    | (Throw msg, st') => (Throw msg, st')
    end.

Definition throw {A} (msg : jsstring) : M A := fun st => (Throw msg, st).

(** [try { body } catch (err) { handler(err.message) }]. *)
Definition try_catch {A} (body : M A) (handler : jsstring -> M A) : M A :=
  fun st =>
    match body st with
    | (Ok a, st') => (Ok a, st')
    | (Throw msg, st') => handler msg st'
    end.

Definition lift {A} (r : outcome A) : M A := fun st => (r, st).
Definition get {A} (f : page -> A) : M A := fun st => (Ok (f st), st).
Definition modify (f : page -> page) : M unit := fun st => (Ok tt, f st).

(** A task of the event loop runs to completion; an exception nobody
    catches is reported and dropped. *)
Definition run_task (m : M unit) (st : page) : page := snd (m st).

End Widget.

Declare Scope js_scope.
Delimit Scope js_scope with js.
Notation "'let*' x ':=' m 'in' k" := (bind m (fun x => k))
  (at level 10, x pattern, m at level 100, k at level 200) : js_scope.
Notation "m ;; k" := (bind m (fun _ => k))
  (at level 100, k at level 200, right associativity) : js_scope.

(** ** The script *)

Section Script.
Context `{Engine}.
Local Open Scope js_scope.

(** *** DOM and timer primitives *)

Definition createElement (tag : jsstring) : M nat := fun st =>
  let id := next_el st in
  (Ok id, set_next_el (S id) (set_dom <[id := Element tag [] [] [] []]> st)).

Definition with_className (c : jsstring) (e : element) : element :=
  Element (tagName e) c (ownText e) (kids e) (marginLeft e).
Definition with_marginLeft (v : jsstring) (e : element) : element :=
  Element (tagName e) (className e) (ownText e) (kids e) v.
Definition with_innerText (s : jsstring) (e : element) : element :=
  Element (tagName e) (className e) s [] (marginLeft e).
Definition with_child (child : nat) (e : element) : element :=
  Element (tagName e) (className e) (ownText e) (kids e ++ [child])
    (marginLeft e).
Definition without_child (child : nat) (e : element) : element :=
  Element (tagName e) (className e) (ownText e) (filter (.≠ child) (kids e))
    (marginLeft e).

Definition set_className (id : nat) (c : jsstring) : M unit :=
  modify (set_dom (alter (with_className c) id)).

Definition set_marginLeft (id : nat) (v : jsstring) : M unit :=
  modify (set_dom (alter (with_marginLeft v) id)).

(** The [innerText] setter: the element's content becomes the given text. *)
Definition set_innerText (id : nat) (s : jsstring) : M unit :=
  modify (set_dom (alter (with_innerText s) id)).

(** The content of an element: its text followed by that of its children
    in order, a [br] child counting as a line feed.  The recursion goes down
    the tree, which is no deeper than the number of elements. *)
Fixpoint inner_text (fuel : nat) (d : gmap nat element) (id : nat) : jsstring :=
  match fuel with
  | O => []
  | S fuel' =>
      match d !! id with
      | None => []
      | Some e =>
          ownText e ++
          concat (map (fun k =>
            match d !! k with
            | Some c => if decide (tagName c = js "br") then [10%N]
                        else inner_text fuel' d k
            | None => []
            end) (kids e))
      end
  end.

(** The [innerText] getter gives the content as it is rendered, not as it
    was stored: content without white space is rendered as it is (the
    stylesheet is taken not to transform the characters themselves), the
    rest as the stylesheet lays it out.  (With the initial
    [white-space: normal], runs of spaces collapse and the spaces at either
    end of a line are dropped, so that a stored ["a "] reads back as
    ["a"].) *)
Definition rendered (content : jsstring) : jsstring :=
  if solid content then content else styled_text content.

Definition innerText (st : page) (id : nat) : jsstring :=
  rendered (inner_text (S (size (dom st))) (dom st) id).

(** [parent.appendChild(child)] for an element [parent]; every call site
    passes a [child] it has just created, which has no parent yet. *)
Definition appendChild (parent child : nat) : M unit :=
  modify (set_dom (alter (with_child child) parent)).

(** [chatBox.appendChild(child)], again of a fresh element. *)
Definition chat_appendChild (child : nat) : M unit :=
  modify (fun st => record (ActAppend child) (set_chat_box (.++ [child]) st)).

(** [chatBox.scrollTop = chatBox.scrollHeight]. *)
Definition scroll_to_bottom : M unit := modify (record ActScroll).

(** [el.remove()]: the element leaves its parent, if it has one. *)
Definition remove (id : nat) : M unit :=
  modify (fun st =>
    record (ActRemove id)
      (set_chat_box (filter (.≠ id)) (set_dom (fmap (without_child id)) st))).

Definition setInterval (cb : timer_callback) (ms : nat) : M nat := fun st =>
  let tid := next_timer st in
  (Ok tid,
   record (ActSetInterval tid)
     (set_next_timer (S tid) (set_timers <[tid := Timer cb ms]> st))).

(** Clearing an interval that is not active does nothing. *)
Definition clearInterval (tid : nat) : M unit :=
  modify (fun st => record (ActClearInterval tid) (set_timers (delete tid) st)).

Definition new_promise : M nat := fun st =>
  let p := next_promise st in (Ok p, set_next_promise (S p) st).

Definition fetch (req : request) : M nat :=
  let* p := new_promise in
  modify (record (ActFetch p req)) ;;
  ret p.

(** [res.json()] returns a promise of the parsed body. *)
Definition res_json : M nat := new_promise.

(** [await p] at the given point of [sendMessage]. *)
Definition suspend (p : nat) (fr : frame) : M unit :=
  modify (set_frames <[p := fr]>).

(** *** Lines 1-45 *)

Definition API_URL : jsstring := js "https://your-backend.onrender.com/chat".

(** Lines 11-18. *)
Definition addMessage (text cls : jsstring) : M nat :=
  let* el := createElement (js "div") in
  set_className el (js "message " ++ cls) ;;
  set_innerText el text ;;
  chat_appendChild el ;;
  scroll_to_bottom ;;
  ret el.

(** Lines 20-32; the result is the pair [{el, int}]. *)
Definition addTypingIndicator : M (nat * nat) :=
  let* el := createElement (js "div") in
  set_className el (js "message bot typing") ;;
  set_innerText el (js "Bot is typing") ;;
  let* dots := createElement (js "span") in
  set_marginLeft dots (js "6px") ;;
  appendChild el dots ;;
  chat_appendChild el ;;
  let* int := setInterval (DotsTick dots 0) 400 in
  scroll_to_bottom ;;
  ret (el, int).

(** Lines 34-45; [interval] is 20 unless the caller gives one, and the
    result is the promise. *)
Definition typeText (element : nat) (text : jsval) (interval : option nat)
  : M nat :=
  set_innerText element [] ;;
  let* p := new_promise in
  let* _ := setInterval (RevealTick element text 0 p) (default 20 interval) in
  ret p.

(** *** Lines 47-94: [sendMessage] *)

(** The marker of line 88: a warning sign (U+26A0, U+FE0F) and the text. *)
Definition error_prefix : jsstring :=
  [9888%N; 65039%N] ++ js " Error connecting to server: ".

(** Line 74: [data.answer || data.response || "No reply"]. *)
Definition reply_text (data : jsval) : outcome jsval :=
  match read_field data (js "answer") with
  | Throw m => Throw m
  | Ok a =>
      if truthy a then Ok a
      else match read_field data (js "response") with
           | Throw m => Throw m
           | Ok b => if truthy b then Ok b else Ok (JStr (js "No reply"))
           end
  end.

(** Line 80: [data.source ? ` (${data.source})` : ""]. *)
Definition source_note (data : jsval) : outcome jsstring :=
  match read_field data (js "source") with
  | Throw m => Throw m
  | Ok src =>
      if truthy src then
        match to_string src with
        | Throw m => Throw m
        | Ok t => Ok (js " (" ++ t ++ js ")")
        end
      else Ok []
  end.

(** Lines 91-93, after the [try] statement. *)
Definition restore_button : M unit :=
  modify (fun st => record (ActSendDisabled false) (set_send_disabled false st)) ;;
  modify (set_send_bg []).

(** Lines 85-89, the [catch] block. *)
Definition on_error (typing_el typing_int : nat) (msg : jsstring) : M unit :=
  clearInterval typing_int ;;
  remove typing_el ;;
  let* _ := addMessage (error_prefix ++ msg) (js "bot") in
  ret tt.

(** A stretch of the [try] block either stops at the next [await] or runs
    off the end of the block. *)
Inductive progress := Suspended | Completed.

(** One stretch of lines 60-89 with what follows: an exception goes to the
    [catch] block, and unless the stretch suspended, lines 91-93 run. *)
Definition in_try (typing_el typing_int : nat) (body : M progress) : M unit :=
  let* r := try_catch body
              (fun msg => on_error typing_el typing_int msg ;; ret Completed) in
  match r with
  | Suspended => ret tt
  | Completed => restore_button
  end.

(** Lines 47-65, up to the first [await]. *)
Definition sendMessage : M unit :=
  let* v := get input_value in
  let text := trim v in
  match text with
  | [] => ret tt
  | _ =>
      modify (fun st => record (ActSendDisabled true) (set_send_disabled true st)) ;;
      modify (set_send_bg (js "#ccc")) ;;
      let* _ := addMessage text (js "user") in
      modify (set_input_value []) ;;
      let* typing := addTypingIndicator in
      in_try (fst typing) (snd typing)
        (let* p := fetch (Request API_URL (js "POST") (js "application/json")
                            (JObj [(js "message", JStr text)])) in
         suspend p (AwaitFetch text (fst typing) (snd typing)) ;;
         ret Suspended)
  end.

(** Line 66, once [fetch] has resolved. *)
Definition after_fetch (typing_el typing_int : nat) : M unit :=
  in_try typing_el typing_int
    (let* q := res_json in
     suspend q (AwaitJson typing_el typing_int) ;;
     ret Suspended).

(** Lines 67-76, once the body has been parsed into [data]. *)
Definition after_json (data : jsval) (typing_el typing_int : nat) : M unit :=
  in_try typing_el typing_int
    (clearInterval typing_int ;;
     remove typing_el ;;
     let* botEl := createElement (js "div") in
     set_className botEl (js "message bot") ;;
     chat_appendChild botEl ;;
     let* replyText := lift (reply_text data) in
     let* p := typeText botEl replyText (Some 14) in
     suspend p (AwaitReveal data botEl typing_el typing_int) ;;
     ret Suspended).

(** Lines 78-83, once the reveal has finished. *)
Definition after_reveal (data : jsval) (botEl typing_el typing_int : nat)
  : M unit :=
  in_try typing_el typing_int
    (let* note := createElement (js "small") in
     let* t := lift (source_note data) in
     set_innerText note t ;;
     let* br := createElement (js "br") in
     appendChild botEl br ;;
     appendChild botEl note ;;
     scroll_to_bottom ;;
     ret Completed).

(** An awaited promise was rejected: the [await] throws inside the [try]. *)
Definition after_rejection (typing_el typing_int : nat) (msg : jsstring)
  : M unit :=
  in_try typing_el typing_int (throw msg).

(** *** Timer callbacks *)

(** [resolve()] of the promise [typeText] returned: the invocation awaiting
    it, if any, continues before the next task. *)
Definition resolve (p : nat) : M unit := fun st =>
  let st1 := record (ActResolve p) st in
  match frames st !! p with
  | Some (AwaitReveal data botEl typing_el typing_int) =>
      after_reveal data botEl typing_el typing_int (set_frames (delete p) st1)
  | _ => (Ok tt, st1)
  end.

Definition run_callback (tid : nat) (t : timer) : M unit :=
  match callback t with
  | DotsTick dots i =>
      (* line 29 *)
      set_innerText dots (repeat_str (js ".") (i mod 4)) ;;
      modify (set_timers <[tid := Timer (DotsTick dots (S i)) (period t)]>)
  | RevealTick element text i p =>
      (* lines 39-42 *)
      match text with
      | JStr s =>
          let* shown := get (fun st => innerText st element) in
          set_innerText element (shown ++ charAt s i) ;;
          modify (set_timers
                    <[tid := Timer (RevealTick element text (S i) p) (period t)]>) ;;
          scroll_to_bottom ;;
          if decide (length s <= S i)
          then clearInterval tid ;; resolve p
          else ret tt
      | _ => throw (not_a_function_message (js "charAt"))
      end
  end.

(** ** The event loop *)

Inductive event : Type :=
  (** the user edits the input, which then holds [value] *)
  | UserTypes (value : jsstring)
  (** the user clicks the send button *)
  | UserClicks
  (** [keydown] in the input *)
  | UserKeydown (key : jsstring)
  | TimerFires (tid : nat)
  (** [fetch] resolves with a response of the given status *)
  | FetchResolves (p : nat) (status : nat)
  (** [fetch] rejects: a network failure *)
  | FetchRejects (p : nat) (msg : jsstring)
  (** [res.json()] resolves with the parsed body *)
  | JsonResolves (p : nat) (data : jsval)
  (** [res.json()] rejects: the body could not be read or is not JSON *)
  | JsonRejects (p : nat) (msg : jsstring).

(** One task.  A disabled button dispatches no [click] event (line 8); the
    [keydown] listener of line 9 calls [sendMessage] on Enter; an event for
    a timer that is not active or a promise nobody awaits does nothing. *)
Definition step (e : event) (st : page) : page :=
  match e with
  | UserTypes v => set_input_value v st
  | UserClicks => if send_disabled st then st else run_task sendMessage st
  | UserKeydown key =>
      if decide (key = js "Enter") then run_task sendMessage st else st
  | TimerFires tid =>
      match timers st !! tid with
      | Some t => run_task (run_callback tid t) st
      | None => st
      end
  | FetchResolves p _ =>
      match frames st !! p with
      | Some (AwaitFetch _ typing_el typing_int) =>
          run_task (after_fetch typing_el typing_int) (set_frames (delete p) st)
      | _ => st
      end
  | FetchRejects p msg =>
      match frames st !! p with
      | Some (AwaitFetch _ typing_el typing_int) =>
          run_task (after_rejection typing_el typing_int msg)
            (set_frames (delete p) st)
      | _ => st
      end
  | JsonResolves p data =>
      match frames st !! p with
      | Some (AwaitJson typing_el typing_int) =>
          run_task (after_json data typing_el typing_int)
            (set_frames (delete p) st)
      | _ => st
      end
  | JsonRejects p msg =>
      match frames st !! p with
      | Some (AwaitJson typing_el typing_int) =>
          run_task (after_rejection typing_el typing_int msg)
            (set_frames (delete p) st)
      | _ => st
      end
  end.

Definition run (evs : list event) (st : page) : page :=
  fold_left (fun s e => step e s) evs st.

End Script.

(** ** Notions the properties are stated with *)

Section Notions.
Context `{Engine}.

Definition frame_typing_el (fr : frame) : nat :=
  match fr with
  | AwaitFetch _ el _ | AwaitJson el _ | AwaitReveal _ _ el _ => el
  end.

Definition frame_typing_int (fr : frame) : nat :=
  match fr with
  | AwaitFetch _ _ int | AwaitJson _ int | AwaitReveal _ _ _ int => int
  end.

(** The promise a reveal timer resolves. *)
Definition reveal_promise (cb : timer_callback) : option nat :=
  match cb with
  | RevealTick _ _ _ p => Some p
  | DotsTick _ _ => None
  end.

(** The interval [tid] with callback [cb] was started by the invocation
    [fr] that is suspended on the promise [p]: it is the typing indicator's
    tick while the exchange is awaited, the reveal's tick while the reveal
    is. *)
Definition owns (p : nat) (fr : frame) (tid : nat) (cb : timer_callback)
  : Prop :=
  match cb, fr with
  | DotsTick _ _, AwaitFetch _ _ int => int = tid
  | DotsTick _ _, AwaitJson _ int => int = tid
  | RevealTick _ _ _ q, AwaitReveal _ _ _ _ => q = p
  | _, _ => False
  end.

(** While an invocation awaits the reveal, its typing indicator's tick is
    not active. *)
Definition typing_stopped (ts : gmap nat timer) (fr : frame) : Prop :=
  match fr with
  | AwaitReveal _ _ _ int => ts !! int = None
  | _ => True
  end.

(** Identifiers held by suspended invocations were handed out earlier, every
    active timer belongs to a suspended invocation, no two reveal timers
    resolve the same promise, and a typing indicator that was stopped stays
    stopped. *)
Record wf_core (fs : gmap nat frame) (ts : gmap nat timer) (np ne nt : nat)
  : Prop := WfCore {
  wf_promise : forall p fr, fs !! p = Some fr -> p < np;
  wf_typing_el : forall p fr, fs !! p = Some fr -> frame_typing_el fr < ne;
  wf_typing_int : forall p fr, fs !! p = Some fr -> frame_typing_int fr < nt;
  wf_owned : forall tid t, ts !! tid = Some t ->
             exists p fr, fs !! p = Some fr /\ owns p fr tid (callback t);
  wf_reveal : forall tid1 tid2 t1 t2 q,
      ts !! tid1 = Some t1 -> ts !! tid2 = Some t2 ->
      reveal_promise (callback t1) = Some q ->
      reveal_promise (callback t2) = Some q -> tid1 = tid2;
  wf_stopped : forall p fr, fs !! p = Some fr -> typing_stopped ts fr
}.

Definition well_formed (st : page) : Prop :=
  wf_core (frames st) (timers st) (next_promise st) (next_el st)
    (next_timer st).

(** A page on which the script is at rest: no invocation is suspended and
    no timer is active.  The page as loaded is one, whatever its markup. *)
Definition quiet (st : page) : Prop := frames st = ∅ /\ timers st = ∅.

(** [x] comes before [y] in the list. *)
Definition precedes {A} (x y : A) (l : list A) : Prop :=
  exists l1 l2 l3, l = l1 ++ x :: l2 ++ y :: l3.

(** The entry the [catch] block appends for a failure with message [msg]. *)
Definition error_entry (msg : jsstring) : element :=
  Element (js "div") (js "message bot") (error_prefix ++ msg) [] [].

(** The last entry of the log is an error entry. *)
Definition error_shown (st : page) : Prop :=
  exists el msg, last (chat_box st) = Some el
                 /\ dom st !! el = Some (error_entry msg).

(** What the [catch] block leaves behind when it handles a failure with
    message [msg] from a page [st], for the typing indicator
    [{el: tel, int: tint}]: its five effects and nothing else, the placeholder
    gone from the log, one error entry at its end, the typing tick cancelled
    and no other timer touched, the button enabled again. *)
Definition failure_outcome (st : page) (tel tint : nat) (msg : jsstring)
    (st' : page) : Prop :=
  history st' = history st ++
    [ActClearInterval tint; ActRemove tel; ActAppend (next_el st); ActScroll;
     ActSendDisabled false]
  /\ chat_box st' = filter (.≠ tel) (chat_box st) ++ [next_el st]
  /\ dom st' !! next_el st = Some (error_entry msg)
  /\ timers st' = delete tint (timers st)
  /\ send_disabled st' = false.

(** The log still holds [u], and whatever stands before [u] was already in
    the log [old]. *)
Definition log_keeps (u : nat) (old l : list nat) : Prop :=
  exists pre post, l = pre ++ u :: post /\ forall x, x ∈ pre -> x ∈ old.

(** The invariant behind the ordering of the log: [u] stays in the log
    with nothing new before it, and no suspended invocation holds [u] as its
    typing placeholder, so none will remove it. *)
Definition keeps_entry (u : nat) (old : list nat) (st : page) : Prop :=
  log_keeps u old (chat_box st)
  /\ u < next_el st
  /\ map_Forall (fun _ fr => frame_typing_el fr <> u) (frames st).

(** Between [st] and [st'], whenever an entry was appended to the log, the
    tick of the typing indicator [{el: tel, int: tint}] had been cancelled
    and after that its placeholder removed. *)
Definition appends_after_stop (st : page) (tel tint : nat) (st' : page)
  : Prop :=
  exists new,
    history st' = history st ++ new
    /\ forall i el, new !! i = Some (ActAppend el) ->
          exists j k, j < k /\ k < i
                      /\ new !! j = Some (ActClearInterval tint)
                      /\ new !! k = Some (ActRemove tel).

(** The typing indicator was stopped first, and afterwards its tick is not
    active and its placeholder not in the log. *)
Definition stops_typing_first (st : page) (tel tint : nat) (st' : page)
  : Prop :=
  appends_after_stop st tel tint st'
  /\ timers st' !! tint = None
  /\ tel ∉ chat_box st'.

(** [k] ticks of the interval [tid] in a row. *)
Definition reveal_ticks (tid k : nat) (st : page) : page :=
  Nat.iter k (step (TimerFires tid)) st.

(** The getter reads every prefix of [s] back as it was stored: none of
    them changes when it is laid out.  So it is for text without white
    space, and for any text under [white-space: pre]. *)
Definition reads_back (s : jsstring) : Prop :=
  forall k, k <= length s -> rendered (take k s) = take k s.



(** Either no cycle is in flight and the button is enabled, or exactly one
    is and the button is disabled. *)
Definition one_at_a_time (st : page) : Prop :=
  (send_disabled st = false /\ frames st = ∅)
  \/ (send_disabled st = true /\ exists p fr, frames st = {[p := fr]}).

(** C2 as the specification words it: a response whose status is not 2xx
    takes the failure path, whatever its body. *)
Definition non_2xx_takes_failure_path : Prop :=
  forall (st : page) (p : nat) (text : jsstring) (tel tint : nat)
         (status : nat) (data : jsval),
    frames st !! p = Some (AwaitFetch text tel tint) ->
    ~ (200 <= status < 300) ->
    exists msg,
      failure_outcome st tel tint msg
        (run [FetchResolves p status; JsonResolves (next_promise st) data] st).

(** A request as line 61 issues it: a POST of JSON to [API_URL] whose body
    is [{message: t}] for a text [t] that is not empty and that trimming
    leaves as it is.  Other effects are of no concern here. *)
Definition proper_request (a : action) : Prop :=
  match a with
  | ActFetch _ req =>
      url req = API_URL
      /\ method req = js "POST"
      /\ content_type req = js "application/json"
      /\ exists t, payload req = JObj [(js "message", JStr t)]
                   /\ t <> [] /\ trim t = t
  | _ => True
  end.

(** The log [cb] over the elements [d], of which [ne] have been created:
    no entry occurs twice, and every entry is an element created earlier. *)
Definition sound_log (d : gmap nat element) (ne : nat) (cb : list nat)
  : Prop :=
  NoDup cb /\ forall x, x ∈ cb -> x < ne /\ is_Some (d !! x).

Definition log_sound (st : page) : Prop :=
  sound_log (dom st) (next_el st) (chat_box st).

(** Events the user has no hand in: timers firing and promises settling. *)
Definition background (e : event) : Prop :=
  match e with
  | UserTypes _ | UserClicks | UserKeydown _ => False
  | _ => True
  end.

End Notions.

(** ** The claim about reply extraction, as the specification words it

    Selection by presence of the field: [answer] when the object has it,
    otherwise [response], otherwise the placeholder. *)
Definition reply_by_presence `{Engine} (fields : list (jsstring * jsval))
  : jsval :=
  match own_field fields (js "answer") with
  | Some a => a
  | None =>
      match own_field fields (js "response") with
      | Some b => b
      | None => JStr (js "No reply")
      end
  end.

(** A field that is absent or holds a falsy value. *)
Definition absent_or_falsy `{Engine} (fields : list (jsstring * jsval))
    (k : jsstring) : Prop :=
  match own_field fields k with
  | Some v => truthy v = false
  | None => True
  end.

(** ** An engine to run the model on

    Integers for numbers and the message texts of V8. *)
(** The layout of text under the initial [white-space: normal]: a carriage
    return, with the line feed that may follow it, is a line break like a
    line feed; within a line, a run of spaces and tabs is one space, and
    the spaces at either end of the line are dropped.  [line_start] says
    that nothing of the line was laid out yet, [pending] that a space is
    waiting for the next character of the line, [after_cr] that the last
    code unit was a carriage return. *)
Fixpoint collapse (line_start pending after_cr : bool) (s : jsstring)
  : jsstring :=
  match s with
  | [] => []
  | c :: s' =>
      if ((c =? 32) || (c =? 9))%N then
        collapse line_start (negb line_start) false s'
      else if (c =? 13)%N then 10%N :: collapse true false true s'
      else if (c =? 10)%N then
        if after_cr then collapse true false false s'
        else 10%N :: collapse true false false s'
      else (if pending then [32%N] else []) ++ c :: collapse false false false s'
  end.

Definition sample_engine : Engine := {|
  number := Z;
  number_truthy z := negb (Z.eqb z 0);
  number_to_string z := js (NilZero.string_of_int (Z.to_int z));
  null_read_message k :=
    js "Cannot read properties of null (reading '" ++ k ++ js "')";
  to_primitive_message := js "Cannot convert object to primitive value";
  not_a_function_message k := js "text." ++ k ++ js " is not a function";
  styled_text := collapse true false false
|}.

(** Pages to try the properties on: a message "hi" was sent and its
    exchange is pending; the response has arrived and its body is awaited. *)
Definition page_awaiting_fetch : page (H := sample_engine) :=
  run [UserTypes (js " hi "); UserClicks] initial.

Definition page_awaiting_body : page (H := sample_engine) :=
  run [UserTypes (js " hi "); UserClicks; FetchResolves 0 200] initial.

(** * Properties *)

Section Properties.
Context `{Engine}.
Local Open Scope js_scope.

(** ** Trimming *)

Lemma trim_start_blank (s : jsstring) :
  forallb is_js_space s = true -> trim_start s = [].
Proof.
  induction s as [|c s IH]; cbn [forallb trim_start]; [done|].
  intros Hs. apply andb_prop in Hs as [Hc Hs]. rewrite Hc. auto.
Qed.

Lemma trim_start_nil (s : jsstring) :
  trim_start s = [] -> forallb is_js_space s = true.
Proof.
  induction s as [|c s IH]; cbn [forallb trim_start]; [done|].
  destruct (is_js_space c); [auto|done].
Qed.

Lemma trim_start_head (s : jsstring) (c : N) (rest : jsstring) :
  trim_start s = c :: rest -> is_js_space c = false.
Proof.
  induction s as [|c' s IH]; cbn [trim_start]; [done|].
  destruct (is_js_space c') eqn:Hc'; [done|]. by intros [= <- _].
Qed.

(** The trimmed value is empty exactly when the value is empty or consists
    of white space only. *)
Lemma trim_nil_iff (s : jsstring) :
  trim s = [] <-> forallb is_js_space s = true.
Proof.
  split; [|intros Hs; unfold trim; by rewrite (trim_start_blank s Hs)].
  unfold trim. intros Hrev.
  assert (Hinner : trim_start (rev (trim_start s)) = []).
  { by rewrite <- (rev_involutive (trim_start (rev (trim_start s)))), Hrev. }
  destruct (trim_start s) as [|c rest] eqn:Hs; [by apply trim_start_nil|].
  apply trim_start_head in Hs.
  apply trim_start_nil in Hinner.
  rewrite forallb_forall in Hinner.
  rewrite (Hinner c) in Hs; [done|]. apply in_rev. rewrite rev_involutive.
  by left.
Qed.

(** ** Empty input *)

Lemma sendMessage_blank (st : page) :
  trim (input_value st) = [] -> run_task sendMessage st = st.
Proof.
  intros Hblank. unfold run_task, sendMessage, bind, get. simpl.
  by rewrite Hblank.
Qed.

(** C7: when the trimmed value of the input is empty (by [trim_nil_iff]:
    when the input is empty or holds white space only), [sendMessage]
    changes nothing at all: the page after the call is the page before it
    (no log entry, no request, button, input and timers as they were),
    whether it was reached by a click or by Enter. *)
Theorem blank_input_is_noop (st : page) :
  trim (input_value st) = [] ->
  run_task sendMessage st = st
  /\ step UserClicks st = st
  /\ step (UserKeydown (js "Enter")) st = st.
Proof.
  intros Hblank. pose proof (sendMessage_blank st Hblank) as Hsend.
  split; [done|]. split.
  - unfold step. by destruct (send_disabled st).
  - unfold step. by destruct (decide _).
Qed.

(** ** What each task does to the page

    The page after each handler, written out; the proofs only compute. *)

Ltac page_simpl :=
  cbv [run_task sendMessage after_rejection after_fetch after_json
       after_reveal in_try try_catch bind ret throw lift get modify on_error
       clearInterval remove addMessage addTypingIndicator typeText
       createElement set_className set_innerText set_marginLeft appendChild
       chat_appendChild scroll_to_bottom restore_button record setInterval
       new_promise fetch res_json suspend resolve run_callback
       set_dom set_next_el set_chat_box set_input_value set_send_disabled
       set_send_bg set_timers set_next_timer set_frames set_next_promise
       dom next_el chat_box input_value send_disabled send_bg timers
       next_timer frames next_promise history fst snd callback period].

Lemma sendMessage_page st c rest :
  trim (input_value st) = c :: rest ->
  run_task sendMessage st =
  let text := c :: rest in
  let n := next_el st in let t := next_timer st in let p := next_promise st in
  Page (<[S (S n) := Element (js "span") [] [] [] (js "6px")]>
         (<[S n := Element (js "div") (js "message bot typing")
                     (js "Bot is typing") [S (S n)] []]>
           (<[n := Element (js "div") (js "message user") text [] []]> (dom st))))
       (S (S (S n))) (chat_box st ++ [n; S n]) [] true (js "#ccc")
       (<[t := Timer (DotsTick (S (S n)) 0) 400]> (timers st)) (S t)
       (<[p := AwaitFetch text (S n) t]> (frames st)) (S p)
       (history st ++
          [ActSendDisabled true; ActAppend n; ActScroll; ActAppend (S n);
           ActSetInterval t; ActScroll;
           ActFetch p (Request API_URL (js "POST") (js "application/json")
                         (JObj [(js "message", JStr text)]))]).
Proof.
  destruct st as [d n cb iv b bg ts nt fs np h]. simpl. intros Htrim.
  cbv [run_task sendMessage bind get input_value]. rewrite Htrim.
  page_simpl. f_equal.
  - rewrite !alter_insert_eq. rewrite alter_insert_ne by lia.
    by rewrite !alter_insert_eq.
  - by rewrite <- !app_assoc.
  - by rewrite <- !app_assoc.
Qed.

Lemma after_fetch_page tel tint st :
  run_task (after_fetch tel tint) st =
  Page (dom st) (next_el st) (chat_box st) (input_value st) (send_disabled st)
    (send_bg st) (timers st) (next_timer st)
    (<[next_promise st := AwaitJson tel tint]> (frames st))
    (S (next_promise st)) (history st).
Proof. reflexivity. Qed.

Lemma after_rejection_page tel tint msg st :
  run_task (after_rejection tel tint msg) st =
  let n := next_el st in
  Page (<[n := Element (js "div") (js "message bot") (error_prefix ++ msg) [] []]>
          (without_child tel <$> dom st))
    (S n) (filter (.≠ tel) (chat_box st) ++ [n]) (input_value st) false []
    (delete tint (timers st)) (next_timer st) (frames st) (next_promise st)
    (history st ++ [ActClearInterval tint; ActRemove tel; ActAppend n;
                    ActScroll; ActSendDisabled false]).
Proof.
  destruct st as [d n cb iv b bg ts nt fs np h]. page_simpl. f_equal.
  - by rewrite !alter_insert_eq.
  - by rewrite <- !app_assoc.
Qed.

Lemma after_json_page data v tel tint st :
  reply_text data = Ok v ->
  run_task (after_json data tel tint) st =
  let n := next_el st in let t := next_timer st in let p := next_promise st in
  Page (<[n := Element (js "div") (js "message bot") [] [] []]>
          (without_child tel <$> dom st))
    (S n) (filter (.≠ tel) (chat_box st) ++ [n]) (input_value st)
    (send_disabled st) (send_bg st)
    (<[t := Timer (RevealTick n v 0 p) 14]> (delete tint (timers st))) (S t)
    (<[p := AwaitReveal data n tel tint]> (frames st)) (S p)
    (history st ++ [ActClearInterval tint; ActRemove tel; ActAppend n;
                    ActSetInterval t]).
Proof.
  destruct st as [d n cb iv b bg ts nt fs np h]. intros Hv.
  page_simpl. rewrite Hv. f_equal.
  - by rewrite !alter_insert_eq.
  - by rewrite <- !app_assoc.
Qed.

Lemma after_json_page_throw data msg tel tint st :
  reply_text data = Throw msg ->
  run_task (after_json data tel tint) st =
  let n := next_el st in
  Page (<[S n := Element (js "div") (js "message bot") (error_prefix ++ msg) [] []]>
          (without_child tel <$>
             <[n := Element (js "div") (js "message bot") [] [] []]>
               (without_child tel <$> dom st)))
    (S (S n)) (filter (.≠ tel) (filter (.≠ tel) (chat_box st) ++ [n]) ++ [S n])
    (input_value st) false []
    (delete tint (delete tint (timers st))) (next_timer st)
    (frames st) (next_promise st)
    (history st ++ [ActClearInterval tint; ActRemove tel; ActAppend n;
                    ActClearInterval tint; ActRemove tel; ActAppend (S n);
                    ActScroll; ActSendDisabled false]).
Proof.
  destruct st as [d n cb iv b bg ts nt fs np h]. intros Hv.
  page_simpl. rewrite Hv. f_equal.
  - by rewrite !alter_insert_eq.
  - by rewrite <- !app_assoc.
Qed.

Lemma after_reveal_page data t botEl tel tint st :
  source_note data = Ok t ->
  run_task (after_reveal data botEl tel tint) st =
  let n := next_el st in
  Page (alter (with_child n) botEl
          (alter (with_child (S n)) botEl
             (<[S n := Element (js "br") [] [] [] []]>
                (<[n := Element (js "small") [] t [] []]> (dom st)))))
    (S (S n)) (chat_box st) (input_value st) false []
    (timers st) (next_timer st) (frames st) (next_promise st)
    (history st ++ [ActScroll; ActSendDisabled false]).
Proof.
  destruct st as [d n cb iv b bg ts nt fs np h]. intros Hv.
  page_simpl. rewrite Hv. f_equal.
  - by rewrite !alter_insert_eq.
  - by rewrite <- !app_assoc.
Qed.

Lemma after_reveal_page_throw data msg botEl tel tint st :
  source_note data = Throw msg ->
  run_task (after_reveal data botEl tel tint) st =
  let n := next_el st in
  Page (<[S n := Element (js "div") (js "message bot") (error_prefix ++ msg) [] []]>
          (without_child tel <$>
             <[n := Element (js "small") [] [] [] []]> (dom st)))
    (S (S n)) (filter (.≠ tel) (chat_box st) ++ [S n]) (input_value st) false []
    (delete tint (timers st)) (next_timer st) (frames st) (next_promise st)
    (history st ++ [ActClearInterval tint; ActRemove tel; ActAppend (S n);
                    ActScroll; ActSendDisabled false]).
Proof.
  destruct st as [d n cb iv b bg ts nt fs np h]. intros Hv.
  page_simpl. rewrite Hv. f_equal.
  - by rewrite !alter_insert_eq.
  - by rewrite <- !app_assoc.
Qed.

Lemma dots_tick_page tid dots i ms st :
  run_task (run_callback tid (Timer (DotsTick dots i) ms)) st =
  Page (alter (with_innerText (repeat_str (js ".") (i mod 4))) dots (dom st))
    (next_el st) (chat_box st) (input_value st) (send_disabled st) (send_bg st)
    (<[tid := Timer (DotsTick dots (S i)) ms]> (timers st)) (next_timer st)
    (frames st) (next_promise st) (history st).
Proof. reflexivity. Qed.

Lemma reveal_tick_page tid el s i p ms st :
  S i < length s ->
  run_task (run_callback tid (Timer (RevealTick el (JStr s) i p) ms)) st =
  Page (alter (with_innerText (innerText st el ++ charAt s i)) el (dom st))
    (next_el st) (chat_box st) (input_value st) (send_disabled st) (send_bg st)
    (<[tid := Timer (RevealTick el (JStr s) (S i) p) ms]> (timers st))
    (next_timer st) (frames st) (next_promise st) (history st ++ [ActScroll]).
Proof.
  intros Hi. cbv [run_task run_callback callback period bind get].
  cbv [set_innerText modify set_timers scroll_to_bottom].
  destruct (decide (length s <= S i)) as [Hle|_]; [lia|]. reflexivity.
Qed.

Lemma reveal_last_tick_page tid el s i p ms st :
  length s <= S i ->
  run_task (run_callback tid (Timer (RevealTick el (JStr s) i p) ms)) st =
  run_task (resolve p)
    (Page (alter (with_innerText (innerText st el ++ charAt s i)) el (dom st))
       (next_el st) (chat_box st) (input_value st) (send_disabled st)
       (send_bg st) (delete tid (timers st))
       (next_timer st) (frames st) (next_promise st)
       (history st ++ [ActScroll; ActClearInterval tid])).
Proof.
  intros Hi. cbv [run_task run_callback callback period bind get].
  cbv [set_innerText modify set_timers scroll_to_bottom clearInterval].
  destruct (decide (length s <= S i)) as [_|Hn]; [|lia].
  cbv [record set_timers set_dom dom next_el chat_box input_value send_disabled
       send_bg timers next_timer frames next_promise history].
  rewrite delete_insert_eq, <- app_assoc. reflexivity.
Qed.

Lemma reveal_tick_not_string tid el v i p ms st :
  (forall s, v <> JStr s) ->
  run_task (run_callback tid (Timer (RevealTick el v i p) ms)) st = st.
Proof. intros Hv. destruct v; try reflexivity. by destruct (Hv s). Qed.

Lemma resolve_page_awaited p data botEl tel tint st :
  frames st !! p = Some (AwaitReveal data botEl tel tint) ->
  run_task (resolve p) st =
  run_task (after_reveal data botEl tel tint)
    (set_frames (delete p) (record (ActResolve p) st)).
Proof. intros Hp. unfold run_task, resolve. by rewrite Hp. Qed.

(** ** Well-formed pages *)

Lemma wf_core_mono fs ts np ne nt ne' nt' :
  wf_core fs ts np ne nt -> ne <= ne' -> nt <= nt' ->
  wf_core fs ts np ne' nt'.
Proof.
  intros [Hp He Hi Ho Hr Hs] Hle Hle'. split; try done.
  - intros p fr Hfr. specialize (He p fr Hfr). lia.
  - intros p fr Hfr. specialize (Hi p fr Hfr). lia.
Qed.

Lemma typing_stopped_fewer_timers ts ts' fr :
  ts' ⊆ ts -> typing_stopped ts fr -> typing_stopped ts' fr.
Proof.
  intros Hsub. destruct fr; simpl; try done.
  intros Hnone. by eapply lookup_weaken_None.
Qed.

Lemma wf_core_fewer_timers fs ts ts' np ne nt :
  wf_core fs ts np ne nt -> ts' ⊆ ts -> wf_core fs ts' np ne nt.
Proof.
  intros [Hp He Hi Ho Hr Hs] Hsub. split; try done.
  - intros tid t Ht. eapply Ho, lookup_weaken; eauto.
  - intros tid1 tid2 t1 t2 q Ht1 Ht2. eapply Hr; eapply lookup_weaken; eauto.
  - intros p fr Hfr. eapply typing_stopped_fewer_timers; eauto.
Qed.

(** An invocation ends or moves on: its frame goes, together with the
    timers it owned. *)
Lemma wf_core_consume fs ts ts' np ne nt p fr :
  wf_core fs ts np ne nt -> fs !! p = Some fr -> ts' ⊆ ts ->
  (forall tid t, ts' !! tid = Some t -> ~ owns p fr tid (callback t)) ->
  wf_core (delete p fs) ts' np ne nt.
Proof.
  intros [Hp He Hi Ho Hr Hs] Hfr Hsub Hnot. split.
  - intros p' fr' [_ Hl]%lookup_delete_Some. eauto.
  - intros p' fr' [_ Hl]%lookup_delete_Some. eauto.
  - intros p' fr' [_ Hl]%lookup_delete_Some. eauto.
  - intros tid t Ht.
    destruct (Ho tid t) as (p' & fr' & Hl & Hown);
      [by eapply lookup_weaken|].
    exists p', fr'. split; [|done]. apply lookup_delete_Some. split; [|done].
    intros <-. rewrite Hfr in Hl. injection Hl as <-. by eapply Hnot.
  - intros tid1 tid2 t1 t2 q Ht1 Ht2. eapply Hr; eapply lookup_weaken; eauto.
  - intros p' fr' [_ Hl]%lookup_delete_Some.
    eapply typing_stopped_fewer_timers; eauto.
Qed.

(** An invocation suspends on a fresh promise. *)
Lemma wf_core_suspend fs ts np ne nt fr :
  wf_core fs ts np ne nt ->
  frame_typing_el fr < ne -> frame_typing_int fr < nt ->
  typing_stopped ts fr ->
  wf_core (<[np := fr]> fs) ts (S np) ne nt.
Proof.
  intros [Hp He Hi Ho Hr Hs] Hel Hint Hstop. split; try done.
  - intros p fr' [[<- _]|[_ Hl]]%lookup_insert_Some; [lia|].
    specialize (Hp _ _ Hl). lia.
  - intros p fr' [[_ <-]|[_ Hl]]%lookup_insert_Some; eauto.
  - intros p fr' [[_ <-]|[_ Hl]]%lookup_insert_Some; eauto.
  - intros tid t Ht. destruct (Ho tid t Ht) as (p' & fr' & Hl & Hown).
    exists p', fr'. split; [|done]. rewrite lookup_insert_ne; [done|].
    specialize (Hp _ _ Hl). lia.
  - intros p fr' [[_ <-]|[_ Hl]]%lookup_insert_Some; eauto.
Qed.

Lemma wf_core_reveal_promise fs ts np ne nt tid t q :
  wf_core fs ts np ne nt -> ts !! tid = Some t ->
  reveal_promise (callback t) = Some q ->
  q < np /\ exists data botEl tel tint,
              fs !! q = Some (AwaitReveal data botEl tel tint).
Proof.
  intros [Hp He Hi Ho Hr Hs] Ht Hq.
  destruct (Ho tid t Ht) as (p & fr & Hl & Hown).
  destruct (callback t), fr; simpl in *; try done.
  injection Hq as <-. subst p. split; eauto.
Qed.

Lemma wf_core_start_timer fs ts np ne nt p fr tid cb ms :
  wf_core fs ts np ne nt -> fs !! p = Some fr -> owns p fr tid cb ->
  (forall tid' t' q, ts !! tid' = Some t' -> tid' <> tid ->
                     reveal_promise cb = Some q ->
                     reveal_promise (callback t') <> Some q) ->
  (forall p' data botEl tel tint,
      fs !! p' = Some (AwaitReveal data botEl tel tint) -> tint <> tid) ->
  wf_core fs (<[tid := Timer cb ms]> ts) np ne nt.
Proof.
  intros [Hp He Hi Ho Hr Hs] Hfr Hown Hfresh Hother. split; try done.
  - intros tid' t [[<- <-]|[_ Hl]]%lookup_insert_Some; eauto.
  - intros tid1 tid2 t1 t2 q
      [[<- <-]|[Hn1 Hl1]]%lookup_insert_Some
      [[<- <-]|[Hn2 Hl2]]%lookup_insert_Some; simpl; try done.
    + intros Hq Hq2. by destruct (Hfresh _ _ _ Hl2 (not_eq_sym Hn2) Hq).
    + intros Hq1 Hq. by destruct (Hfresh _ _ _ Hl1 (not_eq_sym Hn1) Hq).
    + eauto.
  - intros p' fr' Hl. pose proof (Hs _ _ Hl) as Hstop.
    destruct fr' as [| |data botEl tel tint]; simpl in *; try done.
    rewrite lookup_insert_ne; [done|].
    apply not_eq_sym. by eapply Hother.
Qed.

(** A tick keeps the timer and only advances its counter. *)
Lemma wf_core_tick fs ts np ne nt tid t cb :
  wf_core fs ts np ne nt -> ts !! tid = Some t ->
  (forall p fr, owns p fr tid (callback t) -> owns p fr tid cb) ->
  reveal_promise cb = reveal_promise (callback t) ->
  wf_core fs (<[tid := Timer cb (period t)]> ts) np ne nt.
Proof.
  intros Hwf Ht Hown Hq.
  destruct (wf_owned _ _ _ _ _ Hwf tid t Ht) as (p & fr & Hl & Ho).
  eapply wf_core_start_timer; eauto.
  - intros tid' t' q Ht' Hne Hq1 Hq2. rewrite Hq in Hq1.
    destruct Hne. eapply (wf_reveal _ _ _ _ _ Hwf); eauto.
  - intros p' data botEl tel tint Hfr ->.
    pose proof (wf_stopped _ _ _ _ _ Hwf _ _ Hfr) as Hstop. simpl in Hstop.
    by rewrite Hstop in Ht.
Qed.

(** Line 66: the invocation that awaited [fetch] now awaits the body. *)
Lemma wf_core_rekey fs ts np ne nt p text tel tint :
  wf_core fs ts np ne nt -> fs !! p = Some (AwaitFetch text tel tint) ->
  wf_core (<[np := AwaitJson tel tint]> (delete p fs)) ts (S np) ne nt.
Proof.
  intros [Hp He Hi Ho Hr Hs] Hfr. split; try done.
  - intros p' fr [[<- _]|[_ [_ Hl]%lookup_delete_Some]]%lookup_insert_Some;
      [lia|]. specialize (Hp _ _ Hl). lia.
  - intros p' fr [[_ <-]|[_ [_ Hl]%lookup_delete_Some]]%lookup_insert_Some;
      [|by eauto]. apply (He _ _ Hfr).
  - intros p' fr [[_ <-]|[_ [_ Hl]%lookup_delete_Some]]%lookup_insert_Some;
      [|by eauto]. apply (Hi _ _ Hfr).
  - intros tid t Ht. destruct (Ho tid t Ht) as (p' & fr & Hl & Hown).
    destruct (decide (p' = p)) as [->|Hne].
    + rewrite Hfr in Hl. injection Hl as <-.
      exists np, (AwaitJson tel tint). rewrite lookup_insert_eq.
      split; [done|]. by destruct (callback t).
    + exists p', fr. split; [|done].
      rewrite lookup_insert_ne, lookup_delete_ne; try done.
      specialize (Hp _ _ Hl). lia.
  - intros p' fr [[_ <-]|[_ [_ Hl]%lookup_delete_Some]]%lookup_insert_Some;
      [done|by eauto].
Qed.

(** A timer created now differs from every typing tick handed out before. *)
Lemma wf_core_next_timer_fresh fs ts np ne nt p fr :
  wf_core fs ts np ne nt -> fs !! p = Some fr -> frame_typing_int fr <> nt.
Proof. intros Hwf Hfr. pose proof (wf_typing_int _ _ _ _ _ Hwf _ _ Hfr). lia. Qed.

Lemma well_formed_sendMessage st :
  well_formed st -> well_formed (run_task sendMessage st).
Proof.
  intros Hwf. destruct (trim (input_value st)) as [|c rest] eqn:Htrim.
  { by rewrite (sendMessage_blank st Htrim). }
  rewrite (sendMessage_page _ _ _ Htrim). unfold well_formed. simpl.
  eapply wf_core_start_timer; [|apply lookup_insert_eq|done|done|].
  - eapply wf_core_suspend; simpl; [|lia..|done].
    eapply wf_core_mono; [exact Hwf|lia..].
  - intros p' data botEl tel tint [[_ [=]]|[_ Hl]]%lookup_insert_Some.
    apply (wf_core_next_timer_fresh _ _ _ _ _ _ _ Hwf Hl).
Qed.

Lemma well_formed_after_rejection st p fr msg :
  well_formed st -> frames st !! p = Some fr ->
  (forall tid t, timers st !! tid = Some t -> owns p fr tid (callback t) ->
                 tid = frame_typing_int fr) ->
  well_formed
    (run_task (after_rejection (frame_typing_el fr) (frame_typing_int fr) msg)
       (set_frames (delete p) st)).
Proof.
  intros Hwf Hfr Hint. rewrite after_rejection_page. unfold well_formed. simpl.
  eapply wf_core_mono; [|apply Nat.le_succ_diag_r|done].
  eapply wf_core_consume; eauto; [apply delete_subseteq|].
  intros tid t [Hne Ht]%lookup_delete_Some Hown.
  apply Hne. symmetry. eapply Hint; eauto.
Qed.

Lemma step_well_formed (e : event) (st : page) :
  well_formed st -> well_formed (step e st).
Proof.
  intros Hwf. destruct e as [v| |key|tid|p status|p msg|p data|p msg];
    unfold step.
  - done.
  - destruct (send_disabled st); [done|]. by apply well_formed_sendMessage.
  - destruct (decide _); [|done]. by apply well_formed_sendMessage.
  - destruct (timers st !! tid) as [[cb ms]|] eqn:Ht; [|done].
    destruct cb as [dots i|el v i p].
    + rewrite dots_tick_page. unfold well_formed. simpl.
      by apply (wf_core_tick _ _ _ _ _ _ _ _ Hwf Ht).
    + destruct (wf_core_reveal_promise _ _ _ _ _ _ _ p Hwf Ht eq_refl)
        as (Hlt & data & botEl & tel & tint & Hfr).
      destruct v as [| | | |s| |];
        try (rewrite reveal_tick_not_string; [done|by intros ?]).
      destruct (decide (length s <= S i)) as [Hlast|Hmore].
      * rewrite reveal_last_tick_page by done.
        erewrite resolve_page_awaited by (simpl; exact Hfr).
        assert (Hcore : wf_core (delete p (frames st)) (delete tid (timers st))
                          (next_promise st) (next_el st) (next_timer st)).
        { eapply wf_core_consume; eauto; [apply delete_subseteq|].
          intros tid' t' [Hne Ht']%lookup_delete_Some Hown. apply Hne.
          eapply (wf_reveal _ _ _ _ _ Hwf); eauto.
          destruct (callback t'); simpl in *; [done|by subst]. }
        destruct (source_note data) as [t|m] eqn:Hnote.
        -- rewrite (after_reveal_page _ _ _ _ _ _ Hnote).
           unfold well_formed. simpl.
           eapply wf_core_mono; [exact Hcore|lia..].
        -- rewrite (after_reveal_page_throw _ _ _ _ _ _ Hnote).
           unfold well_formed. simpl.
           eapply wf_core_mono with (ne := next_el st) (nt := next_timer st);
             [|lia..].
           eapply wf_core_fewer_timers; [exact Hcore|apply delete_subseteq].
      * rewrite reveal_tick_page by lia. unfold well_formed. simpl.
        by apply (wf_core_tick _ _ _ _ _ _ _ _ Hwf Ht).
  - destruct (frames st !! p) as [[text tel tint| |]|] eqn:Hfr; try done.
    rewrite after_fetch_page. unfold well_formed. simpl.
    by eapply wf_core_rekey.
  - destruct (frames st !! p) as [[text tel tint| |]|] eqn:Hfr; try done.
    apply (well_formed_after_rejection st p _ msg Hwf Hfr).
    intros tid t _. simpl. by destruct (callback t).
  - destruct (frames st !! p) as [[|tel tint|]|] eqn:Hfr; try done.
    assert (Hcore : wf_core (delete p (frames st)) (delete tint (timers st))
                      (next_promise st) (next_el st) (next_timer st)).
    { eapply wf_core_consume; eauto; [apply delete_subseteq|].
      intros tid' t' [Hne Ht']%lookup_delete_Some Hown. apply Hne.
      simpl in Hown. by destruct (callback t'). }
    pose proof (wf_typing_el _ _ _ _ _ Hwf _ _ Hfr) as Hel.
    pose proof (wf_typing_int _ _ _ _ _ Hwf _ _ Hfr) as Hint.
    simpl in Hel, Hint.
    destruct (reply_text data) as [v|m] eqn:Hreply.
    + rewrite (after_json_page _ _ _ _ _ Hreply). unfold well_formed. simpl.
      eapply wf_core_start_timer; [|apply lookup_insert_eq|done| |].
      * eapply wf_core_suspend; simpl; [|lia..|apply lookup_delete_eq].
        eapply wf_core_mono; [exact Hcore|lia..].
      * intros tid' t' q Ht' _ [= <-] Hq.
        destruct (wf_core_reveal_promise _ _ _ _ _ _ _ _ Hcore Ht' Hq). lia.
      * intros p' data' botEl' tel' tint'
          [[_ [= _ _ _ <-]]|[_ [_ Hl]%lookup_delete_Some]]%lookup_insert_Some;
          [lia|].
        apply (wf_core_next_timer_fresh _ _ _ _ _ _ _ Hwf Hl).
    + rewrite (after_json_page_throw _ _ _ _ _ Hreply). unfold well_formed. simpl.
      eapply wf_core_mono with (ne := next_el st) (nt := next_timer st);
        [|lia..].
      eapply wf_core_fewer_timers; [exact Hcore|apply delete_subseteq].
  - destruct (frames st !! p) as [[|tel tint|]|] eqn:Hfr; try done.
    apply (well_formed_after_rejection st p _ msg Hwf Hfr).
    intros tid t _. simpl. by destruct (callback t).
Qed.

Lemma run_app (evs1 evs2 : list event) (st : page) :
  run (evs1 ++ evs2) st = run evs2 (run evs1 st).
Proof. apply fold_left_app. Qed.

Lemma run_snoc (evs : list event) (e : event) (st : page) :
  run (evs ++ [e]) st = step e (run evs st).
Proof. by rewrite run_app. Qed.

Lemma run_well_formed (evs : list event) (st : page) :
  well_formed st -> well_formed (run evs st).
Proof.
  revert st. induction evs as [|e evs IH]; intros st Hwf; [done|].
  simpl. by apply IH, step_well_formed.
Qed.

(** Every page the widget can reach from a quiet one is well formed. *)
Lemma reachable_well_formed (st0 : page) (evs : list event) :
  quiet st0 -> well_formed (run evs st0).
Proof.
  intros [Hfs Hts]. apply run_well_formed. unfold well_formed.
  rewrite Hfs, Hts. split; intros *; by rewrite lookup_empty.
Qed.

(** On such a page nobody awaits the promise that will be created next. *)
Lemma reachable_next_promise_unawaited (st0 : page) (evs : list event) :
  quiet st0 ->
  let st := run evs st0 in frames st !! next_promise st = None.
Proof.
  intros Hquiet st.
  destruct (frames st !! next_promise st) as [fr|] eqn:Hfr; [|done].
  pose proof (wf_promise _ _ _ _ _ (reachable_well_formed st0 evs Hquiet)
                _ _ Hfr) as Hlt.
  fold st in Hlt. lia.
Qed.


(** ** Failures *)

Lemma step_FetchResolves (st : page) (p : nat) (text : jsstring)
    (tel tint : nat) :
  frames st !! p = Some (AwaitFetch text tel tint) ->
  forall status,
  step (FetchResolves p status) st =
  Page (dom st) (next_el st) (chat_box st) (input_value st) (send_disabled st)
    (send_bg st) (timers st) (next_timer st)
    (<[next_promise st := AwaitJson tel tint]> (delete p (frames st)))
    (S (next_promise st)) (history st).
Proof. intros Hfr status. unfold step. by rewrite Hfr, after_fetch_page. Qed.

Lemma rejection_outcome (st : page) (p : nat) (tel tint : nat) (msg : jsstring) :
  failure_outcome st tel tint msg
    (run_task (after_rejection tel tint msg) (set_frames (delete p) st)).
Proof.
  rewrite after_rejection_page. unfold failure_outcome. simpl.
  repeat split. apply lookup_insert_eq.
Qed.

(** C8: when the exchange fails with message [msg], be it [fetch] or the
    reading of the body that rejects, the typing placeholder leaves the log
    and exactly one entry is appended to it: a [div] of class "message bot"
    whose text is the error marker followed by [msg]. *)
Theorem failure_appends_one_error_entry (st : page) (p : nat) (msg : jsstring) :
  (forall text tel tint,
      frames st !! p = Some (AwaitFetch text tel tint) ->
      let st' := step (FetchRejects p msg) st in
      chat_box st' = filter (.≠ tel) (chat_box st) ++ [next_el st]
      /\ dom st' !! next_el st =
         Some (Element (js "div") (js "message bot") (error_prefix ++ msg) [] []))
  /\ (forall tel tint,
      frames st !! p = Some (AwaitJson tel tint) ->
      let st' := step (JsonRejects p msg) st in
      chat_box st' = filter (.≠ tel) (chat_box st) ++ [next_el st]
      /\ dom st' !! next_el st =
         Some (Element (js "div") (js "message bot") (error_prefix ++ msg) [] [])).
Proof.
  split.
  - intros text tel tint Hfr. simpl. unfold step. rewrite Hfr.
    destruct (rejection_outcome st p tel tint msg) as (_ & Hlog & Hdom & _).
    by split.
  - intros tel tint Hfr. simpl. unfold step. rewrite Hfr.
    destruct (rejection_outcome st p tel tint msg) as (_ & Hlog & Hdom & _).
    by split.
Qed.

Lemma reply_text_throws (data : jsval) (m : jsstring) :
  reply_text data = Throw m ->
  (data = JNull \/ data = JUndefined) /\ m = null_read_message (js "answer").
Proof.
  unfold reply_text.
  destruct data; cbn -[js];
    repeat match goal with
           | |- context [truthy ?v] => destruct (truthy v)
           end;
    try discriminate; intros [= <-]; auto.
Qed.

(** C2, amended: a network failure and a body that cannot be read as JSON
    (whatever the status of the response) take the failure path: the
    [catch] block runs with the message and nothing of the success path
    does.  The status itself is never looked at: a response whose body is
    JSON enters the success path whatever its status.  The typing indicator
    is stopped and the bot entry appended, and the reply is handed to the
    reveal, for every body but [null]: there reading [data.answer] throws
    once the (empty) bot entry is in the log, and the [catch] block appends
    the error entry after it. *)
Theorem transport_failure_takes_failure_path
    (st : page) (p : nat) (text : jsstring) (tel tint : nat) :
  frames st !! p = Some (AwaitFetch text tel tint) ->
  (forall msg, failure_outcome st tel tint msg (step (FetchRejects p msg) st))
  /\ (forall status msg,
        failure_outcome st tel tint msg
          (run [FetchResolves p status; JsonRejects (next_promise st) msg] st))
  /\ (forall status status',
        step (FetchResolves p status) st = step (FetchResolves p status') st)
  /\ (forall status data v,
        reply_text data = Ok v ->
        let st' :=
          run [FetchResolves p status; JsonResolves (next_promise st) data] st in
        history st' = history st ++
          [ActClearInterval tint; ActRemove tel; ActAppend (next_el st);
           ActSetInterval (next_timer st)]
        /\ timers st' !! next_timer st =
           Some (Timer (RevealTick (next_el st) v 0 (S (next_promise st))) 14))
  /\ (forall status data m,
        reply_text data = Throw m ->
        let st' :=
          run [FetchResolves p status; JsonResolves (next_promise st) data] st in
        (data = JNull \/ data = JUndefined)
        /\ history st' = history st ++
             [ActClearInterval tint; ActRemove tel; ActAppend (next_el st);
              ActClearInterval tint; ActRemove tel;
              ActAppend (S (next_el st)); ActScroll; ActSendDisabled false]
        /\ dom st' !! next_el st =
           Some (Element (js "div") (js "message bot") [] [] [])
        /\ dom st' !! S (next_el st) = Some (error_entry m)
        /\ (forall tid, timers st' !! tid = None \/
                        timers st' !! tid = timers st !! tid)
        /\ send_disabled st' = false).
Proof.
  intros Hfr.
  pose proof (step_FetchResolves st p text tel tint Hfr) as Hres.
  split; [|split; [|split; [|split]]].
  - intros msg. unfold step. rewrite Hfr. apply rejection_outcome.
  - intros status msg. unfold run. cbn [fold_left]. rewrite Hres.
    unfold step. simpl frames. rewrite lookup_insert_eq.
    apply (rejection_outcome (Page _ _ _ _ _ _ _ _ _ _ _)).
  - intros status status'. by rewrite !Hres.
  - intros status data v Hv. unfold run. cbn [fold_left]. rewrite Hres.
    unfold step. simpl frames. rewrite lookup_insert_eq.
    rewrite (after_json_page _ _ _ _ _ Hv). simpl.
    split; [done|apply lookup_insert_eq].
  - intros status data m Hm. unfold run. cbn [fold_left]. rewrite Hres.
    unfold step. simpl frames. rewrite lookup_insert_eq.
    rewrite (after_json_page_throw _ _ _ _ _ Hm).
    cbn [dom next_el timers history send_disabled set_frames].
    split; [apply (reply_text_throws _ _ Hm)|]. split; [done|].
    split.
    { rewrite lookup_insert_ne, lookup_fmap, lookup_insert_eq by lia. done. }
    split; [apply lookup_insert_eq|]. split; [|done].
    intros tid. destruct (decide (tid = tint)) as [->|Hne].
    + left. apply lookup_delete_eq.
    + right. by rewrite !lookup_delete_ne.
Qed.


(** ** Order of the log *)

Lemma resolve_page (p : nat) (st : page) :
  run_task (resolve p) st =
  match frames st !! p with
  | Some (AwaitReveal data botEl tel tint) =>
      run_task (after_reveal data botEl tel tint)
        (set_frames (delete p) (record (ActResolve p) st))
  | _ => record (ActResolve p) st
  end.
Proof.
  unfold run_task, resolve. by destruct (frames st !! p) as [[]|].
Qed.

Lemma log_keeps_app (u : nat) (old l add : list nat) :
  log_keeps u old l -> log_keeps u old (l ++ add).
Proof.
  intros (pre & post & -> & Hpre). exists pre, (post ++ add).
  split; [|done]. by rewrite <- app_assoc.
Qed.

Lemma log_keeps_filter (u tel : nat) (old l : list nat) :
  tel <> u -> log_keeps u old l -> log_keeps u old (filter (.≠ tel) l).
Proof.
  intros Hne (pre & post & -> & Hpre).
  exists (filter (.≠ tel) pre), (filter (.≠ tel) post). split.
  - rewrite filter_app, filter_cons_True; [done|]. simpl. congruence.
  - intros x [_ Hx]%list_elem_of_filter. auto.
Qed.

Lemma keeps_entry_sendMessage (u : nat) (old : list nat) (st : page) :
  keeps_entry u old st -> keeps_entry u old (run_task sendMessage st).
Proof.
  intros (Hlog & Hu & Hfr).
  destruct (trim (input_value st)) as [|c rest] eqn:Htrim.
  { by rewrite (sendMessage_blank st Htrim). }
  rewrite (sendMessage_page _ _ _ Htrim). unfold keeps_entry. simpl.
  split; [by apply log_keeps_app|]. split; [lia|].
  apply map_Forall_insert_2; [simpl; lia|done].
Qed.

Lemma keeps_entry_after_rejection (u : nat) (old : list nat) (st : page)
    (p tel tint : nat) (msg : jsstring) :
  keeps_entry u old st -> tel <> u ->
  keeps_entry u old
    (run_task (after_rejection tel tint msg) (set_frames (delete p) st)).
Proof.
  intros (Hlog & Hu & Hfr) Hne. rewrite after_rejection_page.
  unfold keeps_entry. simpl.
  split; [by apply log_keeps_app, log_keeps_filter|]. split; [lia|].
  by apply map_Forall_delete.
Qed.

Lemma step_keeps_entry (u : nat) (old : list nat) (e : event) (st : page) :
  keeps_entry u old st -> keeps_entry u old (step e st).
Proof.
  intros Hk. pose proof Hk as (Hlog & Hu & Hfr).
  destruct e as [v| |key|tid|p status|p msg|p data|p msg]; unfold step.
  - done.
  - destruct (send_disabled st); [done|]. by apply keeps_entry_sendMessage.
  - destruct (decide _); [|done]. by apply keeps_entry_sendMessage.
  - destruct (timers st !! tid) as [[cb ms]|] eqn:Ht; [|done].
    destruct cb as [dots i|el v i p]; [by rewrite dots_tick_page|].
    destruct v as [| | | |s| |];
      try (rewrite reveal_tick_not_string; [done|by intros ?]).
    destruct (decide (length s <= S i)) as [Hlast|Hmore];
      [|by rewrite reveal_tick_page by lia].
    rewrite reveal_last_tick_page, resolve_page by done. simpl frames.
    destruct (frames st !! p) as [[| |data botEl tel tint]|] eqn:Hp; try done.
    pose proof (Hfr _ _ Hp) as Hne. simpl in Hne.
    destruct (source_note data) as [t|m] eqn:Hnote.
    + rewrite (after_reveal_page _ _ _ _ _ _ Hnote). unfold keeps_entry. simpl.
      split; [done|]. split; [lia|]. by apply map_Forall_delete.
    + rewrite (after_reveal_page_throw _ _ _ _ _ _ Hnote).
      unfold keeps_entry. simpl.
      split; [by apply log_keeps_app, log_keeps_filter|]. split; [lia|].
      by apply map_Forall_delete.
  - destruct (frames st !! p) as [[text tel tint| |]|] eqn:Hp; try done.
    pose proof (Hfr _ _ Hp) as Hne. simpl in Hne.
    rewrite after_fetch_page. unfold keeps_entry. simpl.
    split; [done|]. split; [done|].
    apply map_Forall_insert_2; [done|by apply map_Forall_delete].
  - destruct (frames st !! p) as [[text tel tint| |]|] eqn:Hp; try done.
    apply keeps_entry_after_rejection; [done|]. apply (Hfr _ _ Hp).
  - destruct (frames st !! p) as [[|tel tint|]|] eqn:Hp; try done.
    pose proof (Hfr _ _ Hp) as Hne. simpl in Hne.
    destruct (reply_text data) as [v|m] eqn:Hreply.
    + rewrite (after_json_page _ _ _ _ _ Hreply). unfold keeps_entry. simpl.
      split; [by apply log_keeps_app, log_keeps_filter|]. split; [lia|].
      apply map_Forall_insert_2; [done|by apply map_Forall_delete].
    + rewrite (after_json_page_throw _ _ _ _ _ Hreply).
      unfold keeps_entry. simpl.
      split; [|split; [lia|by apply map_Forall_delete]].
      by apply log_keeps_app, log_keeps_filter, log_keeps_app, log_keeps_filter.
  - destruct (frames st !! p) as [[|tel tint|]|] eqn:Hp; try done.
    apply keeps_entry_after_rejection; [done|]. apply (Hfr _ _ Hp).
Qed.

Lemma run_keeps_entry (u : nat) (old : list nat) (evs : list event)
    (st : page) :
  keeps_entry u old st -> keeps_entry u old (run evs st).
Proof.
  revert st. induction evs as [|e evs IH]; intros st Hk; [done|].
  simpl. by apply IH, step_keeps_entry.
Qed.

Lemma log_keeps_precedes (u x : nat) (old l : list nat) :
  log_keeps u old l -> x ∈ l -> x ∉ old -> x <> u -> precedes u x l.
Proof.
  intros (pre & post & -> & Hpre) Hx Hold Hne.
  apply elem_of_app in Hx as [Hx|Hx]; [by destruct Hold; auto|].
  apply elem_of_cons in Hx as [->|Hx]; [done|].
  apply list_elem_of_split in Hx as (l2 & l3 & ->).
  by exists pre, l2, l3.
Qed.

(** C9: on any page the widget can reach from a quiet one, a submit with non-empty trimmed
    input appends the user message (one [div] of class "message user" with
    the trimmed text), then the typing placeholder, and only then issues the
    request, whose body carries the trimmed text.  From then on the user
    message stays in the log and every entry the log did not hold before
    the submit (the placeholder, the reply, an error entry, later messages)
    stands after it. *)
Theorem user_message_precedes_exchange (st0 : page) (evs0 : list event) :
  quiet st0 ->
  let st := run evs0 st0 in
  trim (input_value st) <> [] ->
  let st1 := run_task sendMessage st in
  let u := next_el st in
  (exists req,
      history st1 = history st ++
        [ActSendDisabled true; ActAppend u; ActScroll; ActAppend (S u);
         ActSetInterval (next_timer st); ActScroll;
         ActFetch (next_promise st) req]
      /\ payload req = JObj [(js "message", JStr (trim (input_value st)))])
  /\ chat_box st1 = chat_box st ++ [u; S u]
  /\ dom st1 !! u =
     Some (Element (js "div") (js "message user") (trim (input_value st)) [] [])
  /\ (exists e, dom st1 !! S u = Some e
                /\ className e = js "message bot typing")
  /\ (forall evs,
        let st2 := run evs st1 in
        u ∈ chat_box st2
        /\ forall x, x ∈ chat_box st2 -> x ∉ chat_box st -> x <> u ->
                     precedes u x (chat_box st2)).
Proof.
  intros Hquiet st Htrim st1 u.
  destruct (trim (input_value st)) as [|c rest] eqn:Hinput; [done|].
  subst st1. rewrite (sendMessage_page _ _ _ Hinput). simpl.
  split; [by eexists|]. split; [done|]. split.
  { rewrite !lookup_insert_ne by (subst u; lia). apply lookup_insert_eq. }
  split.
  { eexists. rewrite lookup_insert_ne by (subst u; lia).
    rewrite lookup_insert_eq. done. }
  intros evs.
  match goal with |- context [run evs ?s] => set (st1 := s) end.
  assert (Hk : keeps_entry u (chat_box st) (run evs st1)).
  { apply run_keeps_entry. unfold keeps_entry. subst st1. simpl.
    split; [by exists (chat_box st), [S u]|]. split; [subst u; lia|].
    apply map_Forall_insert_2; [simpl; lia|].
    intros p fr Hfr.
    pose proof (wf_typing_el _ _ _ _ _
                  (reachable_well_formed st0 evs0 Hquiet) _ _ Hfr) as Hel.
    fold st in Hel. subst u. lia. }
  destruct Hk as (Hlog & _). split.
  - destruct Hlog as (pre & post & -> & _). set_solver.
  - intros x. by apply log_keeps_precedes.
Qed.

(** ** The typing indicator *)

Ltac find_stop j k :=
  let pos := fresh "pos" in
  let Hpos := fresh "Hpos" in
  intros pos ? Hpos;
  repeat (destruct pos as [|pos]; cbn in Hpos; try discriminate Hpos);
  try (exists j, k; split; [lia|split; [lia|split; reflexivity]]).

Lemma stops_typing_first_rejection (st : page) (p tel tint : nat)
    (msg : jsstring) :
  tel < next_el st ->
  stops_typing_first st tel tint
    (run_task (after_rejection tel tint msg) (set_frames (delete p) st)).
Proof.
  intros Hel. rewrite after_rejection_page. unfold stops_typing_first. simpl.
  split; [eexists; split; [done|find_stop 0 1]|].
  split; [apply lookup_delete_eq|].
  intros [[Hne _]%list_elem_of_filter|Hin%list_elem_of_singleton]%elem_of_app;
    [done|lia].
Qed.

(** C5: on any page the widget can reach from a quiet one, the success
    path and the failure path (a rejected [fetch], a rejected body, an
    exception after the reveal) first cancel the typing indicator's tick and
    remove its placeholder, and only then append their bot entry; the tick
    is then no longer active and the placeholder no longer in the log.  No
    timer is ever left behind: every active timer belongs to an invocation
    that is still suspended, so when no cycle is in flight no timer is
    active. *)
Theorem typing_tick_cancelled_before_bot_message
    (st0 : page) (evs : list event) :
  quiet st0 ->
  let st := run evs st0 in
  (forall q tel tint data,
      frames st !! q = Some (AwaitJson tel tint) ->
      stops_typing_first st tel tint (step (JsonResolves q data) st))
  /\ (forall p text tel tint msg,
      frames st !! p = Some (AwaitFetch text tel tint) ->
      stops_typing_first st tel tint (step (FetchRejects p msg) st))
  /\ (forall q tel tint msg,
      frames st !! q = Some (AwaitJson tel tint) ->
      stops_typing_first st tel tint (step (JsonRejects q msg) st))
  /\ (forall tid el s i p ms data botEl tel tint,
      timers st !! tid = Some (Timer (RevealTick el (JStr s) i p) ms) ->
      length s <= S i ->
      frames st !! p = Some (AwaitReveal data botEl tel tint) ->
      let st' := step (TimerFires tid) st in
      appends_after_stop st tel tint st' /\ timers st' !! tint = None)
  /\ (forall tid t,
      timers st !! tid = Some t ->
      exists p fr, frames st !! p = Some fr /\ owns p fr tid (callback t))
  /\ (frames st = ∅ -> timers st = ∅).
Proof.
  intros Hquiet st.
  pose proof (reachable_well_formed st0 evs Hquiet) as Hwf. fold st in Hwf.
  split; [|split; [|split; [|split; [|split]]]].
  - intros q tel tint data Hfr. unfold step. rewrite Hfr.
    pose proof (wf_typing_el _ _ _ _ _ Hwf _ _ Hfr) as Hel.
    pose proof (wf_typing_int _ _ _ _ _ Hwf _ _ Hfr) as Hint.
    simpl in Hel, Hint.
    destruct (reply_text data) as [v|m] eqn:Hreply.
    + rewrite (after_json_page _ _ _ _ _ Hreply).
      unfold stops_typing_first. simpl.
      split; [eexists; split; [done|find_stop 0 1]|]. split.
      * rewrite lookup_insert_ne by lia. apply lookup_delete_eq.
      * intros [[Hne _]%list_elem_of_filter|Hin%list_elem_of_singleton]%elem_of_app;
          [done|lia].
    + rewrite (after_json_page_throw _ _ _ _ _ Hreply).
      unfold stops_typing_first. simpl.
      split; [eexists; split; [done|find_stop 0 1]|]. split.
      * apply lookup_delete_eq.
      * intros [[Hne _]%list_elem_of_filter|Hin%list_elem_of_singleton]%elem_of_app;
          [done|lia].
  - intros p text tel tint msg Hfr. unfold step. rewrite Hfr.
    apply stops_typing_first_rejection.
    apply (wf_typing_el _ _ _ _ _ Hwf _ _ Hfr).
  - intros q tel tint msg Hfr. unfold step. rewrite Hfr.
    apply stops_typing_first_rejection.
    apply (wf_typing_el _ _ _ _ _ Hwf _ _ Hfr).
  - intros tid el s i p ms data botEl tel tint Ht Hlast Hfr. cbv zeta.
    pose proof (wf_stopped _ _ _ _ _ Hwf _ _ Hfr) as Hstop. simpl in Hstop.
    unfold step. rewrite Ht, reveal_last_tick_page, resolve_page by done.
    cbn [frames]. rewrite Hfr.
    destruct (source_note data) as [t|m] eqn:Hnote.
    + rewrite (after_reveal_page _ _ _ _ _ _ Hnote).
      unfold appends_after_stop. simpl. split.
      * eexists. split; [by rewrite <- !app_assoc|]. find_stop 0 1.
      * apply lookup_delete_None. by right.
    + rewrite (after_reveal_page_throw _ _ _ _ _ _ Hnote).
      unfold appends_after_stop. simpl. split.
      * eexists. split; [by rewrite <- !app_assoc|]. find_stop 3 4.
      * apply lookup_delete_eq.
  - apply (wf_owned _ _ _ _ _ Hwf).
  - intros Hidle. apply map_empty. intros tid.
    destruct (timers st !! tid) as [t|] eqn:Ht; [|done].
    destruct (wf_owned _ _ _ _ _ Hwf tid t Ht) as (p & fr & Hfr & _).
    by rewrite Hidle, lookup_empty in Hfr.
Qed.

(** ** The reveal *)


Lemma innerText_leaf (st : page) (el : nat) (e : element) :
  dom st !! el = Some e -> kids e = [] ->
  innerText st el = rendered (ownText e).
Proof.
  intros He Hk. unfold innerText. cbn [inner_text].
  rewrite He, Hk. f_equal. apply app_nil_r.
Qed.

Lemma rendered_solid (s : jsstring) : solid s = true -> rendered s = s.
Proof. intros Hs. unfold rendered. by rewrite Hs. Qed.

Lemma solid_take (s : jsstring) (k : nat) :
  solid s = true -> solid (take k s) = true.
Proof.
  unfold solid. revert k. induction s as [|c s IH]; intros [|k] Hs; try done.
  cbn [take forallb] in *. apply andb_prop in Hs as [Hc Hs].
  by rewrite Hc, IH.
Qed.

Lemma solid_reads_back (s : jsstring) : solid s = true -> reads_back s.
Proof. intros Hs k _. by apply rendered_solid, solid_take. Qed.

Lemma take_charAt (s : jsstring) (k : nat) :
  take k s ++ charAt s k = take (S k) s.
Proof.
  unfold charAt. destruct (s !! k) as [c|] eqn:Hk.
  - symmetry. by apply take_S_r.
  - apply lookup_ge_None in Hk. rewrite app_nil_r, !take_ge; [done|lia..].
Qed.

Section Reveal.
Variables (st : page) (el : nat) (e : element) (s : jsstring)
          (interval : option nat).
Hypothesis target : dom st !! el = Some e.
Hypothesis fresh : frames st !! next_promise st = None.
Hypothesis readable : reads_back s.

Let p := next_promise st.
Let tid := next_timer st.
Let ms := default 20 interval.
Let st0 := snd (typeText el (JStr s) interval st).











End Reveal.



(** ** The busy guard *)

Lemma one_at_a_time_sendMessage (st : page) :
  send_disabled st = false -> frames st = ∅ ->
  one_at_a_time (run_task sendMessage st).
Proof.
  intros Hon Hidle. destruct (trim (input_value st)) as [|c rest] eqn:Htrim.
  { rewrite (sendMessage_blank st Htrim). by left. }
  rewrite (sendMessage_page _ _ _ Htrim). right. simpl.
  split; [done|]. rewrite Hidle, insert_empty. eauto.
Qed.

Lemma step_one_at_a_time (e : event) (st : page) :
  e <> UserKeydown (js "Enter") ->
  one_at_a_time st -> one_at_a_time (step e st).
Proof.
  intros Hkey Hone.
  assert (Hdone : forall (p : nat) (fr : frame),
             frames st !! p = Some fr ->
             (exists p' fr', frames st = {[p' := fr']}) ->
             delete p (frames st) = ∅).
  { intros p fr Hp (p' & fr' & Hfs). rewrite Hfs in Hp |- *.
    apply lookup_singleton_Some in Hp as [-> _]. apply delete_singleton_eq. }
  assert (Hbusy : forall (p : nat) (fr : frame),
             frames st !! p = Some fr ->
             send_disabled st = true
             /\ exists p' fr', frames st = {[p' := fr']}).
  { intros p fr Hp. destruct Hone as [[_ Hidle]|[Hoff Hfs]]; [|done].
    by rewrite Hidle, lookup_empty in Hp. }
  destruct e as [v| |key|tid|p status|p msg|p data|p msg]; unfold step.
  - done.
  - destruct (send_disabled st) eqn:Hoff; [done|].
    destruct Hone as [[_ Hidle]|[Hoff' _]]; [|congruence].
    by apply one_at_a_time_sendMessage.
  - destruct (decide _) as [->|]; [by destruct Hkey|done].
  - destruct (timers st !! tid) as [[cb ms]|] eqn:Ht; [|done].
    destruct cb as [dots i|el v i p]; [by rewrite dots_tick_page|].
    destruct v as [| | | |s| |];
      try (rewrite reveal_tick_not_string; [done|by intros ?]).
    destruct (decide (length s <= S i)) as [Hlast|Hmore];
      [|by rewrite reveal_tick_page by lia].
    rewrite reveal_last_tick_page, resolve_page by done. cbn [frames].
    destruct (frames st !! p) as [[| |data botEl tel tint]|] eqn:Hp; try done.
    destruct (Hbusy _ _ Hp) as [_ Hfs]. left.
    destruct (source_note data) as [t|m] eqn:Hnote.
    + rewrite (after_reveal_page _ _ _ _ _ _ Hnote). simpl. eauto.
    + rewrite (after_reveal_page_throw _ _ _ _ _ _ Hnote). simpl. eauto.
  - destruct (frames st !! p) as [[text tel tint| |]|] eqn:Hp; try done.
    destruct (Hbusy _ _ Hp) as [Hoff Hfs].
    rewrite after_fetch_page. right. simpl. split; [done|].
    rewrite (Hdone _ _ Hp Hfs), insert_empty. eauto.
  - destruct (frames st !! p) as [[text tel tint| |]|] eqn:Hp; try done.
    destruct (Hbusy _ _ Hp) as [_ Hfs].
    rewrite after_rejection_page. left. simpl. eauto.
  - destruct (frames st !! p) as [[|tel tint|]|] eqn:Hp; try done.
    destruct (Hbusy _ _ Hp) as [Hoff Hfs].
    destruct (reply_text data) as [v|m] eqn:Hreply.
    + rewrite (after_json_page _ _ _ _ _ Hreply). right. simpl.
      split; [done|]. rewrite (Hdone _ _ Hp Hfs), insert_empty. eauto.
    + rewrite (after_json_page_throw _ _ _ _ _ Hreply). left. simpl. eauto.
  - destruct (frames st !! p) as [[|tel tint|]|] eqn:Hp; try done.
    destruct (Hbusy _ _ Hp) as [_ Hfs].
    rewrite after_rejection_page. left. simpl. eauto.
Qed.

(** What the disabled button achieves: as long as no Enter is pressed in the
    input, at most one cycle is in flight, and the button is disabled
    exactly while one is. *)
Lemma clicks_alone_one_at_a_time (st0 : page) (evs : list event) :
  quiet st0 -> send_disabled st0 = false ->
  Forall (fun e => e <> UserKeydown (js "Enter")) evs ->
  one_at_a_time (run evs st0).
Proof.
  intros [Hidle _] Hon.
  induction evs as [|e evs IH] using rev_ind; intros Hevs; [by left|].
  apply Forall_app in Hevs as [Hevs He]. rewrite run_snoc.
  apply step_one_at_a_time; [by inversion He|auto].
Qed.

(** ** Reply extraction *)

Lemma reply_text_object (fields : list (jsstring * jsval)) :
  reply_text (JObj fields) =
  Ok (let a := default JUndefined (own_field fields (js "answer")) in
      let b := default JUndefined (own_field fields (js "response")) in
      if truthy a then a else if truthy b then b else JStr (js "No reply")).
Proof.
  unfold reply_text, read_field. simpl.
  destruct (truthy (default JUndefined (own_field fields _))); [done|].
  by destruct (truthy (default JUndefined (own_field fields _))).
Qed.

Lemma absent_or_falsy_read (fields : list (jsstring * jsval)) (k : jsstring) :
  absent_or_falsy fields k ->
  truthy (default JUndefined (own_field fields k)) = false.
Proof. unfold absent_or_falsy. by destruct (own_field fields k). Qed.

(** C3, amended: the reply handed to the reveal on the new bot entry is
    chosen by truthiness.  It is [answer] when that is present and truthy;
    otherwise [response] when that is present and truthy; otherwise the
    literal "No reply".  When both are truthy [answer] wins. *)
Theorem reply_extraction_fallback_chain
    (st : page) (q tel tint : nat) (fields : list (jsstring * jsval)) :
  frames st !! q = Some (AwaitJson tel tint) ->
  exists v,
    reply_text (JObj fields) = Ok v
    /\ (let st' := step (JsonResolves q (JObj fields)) st in
        last (chat_box st') = Some (next_el st)
        /\ timers st' !! next_timer st =
           Some (Timer (RevealTick (next_el st) v 0 (next_promise st)) 14))
    /\ (forall a, own_field fields (js "answer") = Some a ->
                  truthy a = true -> v = a)
    /\ (forall b, absent_or_falsy fields (js "answer") ->
                  own_field fields (js "response") = Some b ->
                  truthy b = true -> v = b)
    /\ (absent_or_falsy fields (js "answer") ->
        absent_or_falsy fields (js "response") ->
        v = JStr (js "No reply")).
Proof.
  intros Hfr. eexists. split; [apply reply_text_object|]. split; [|split; [|split]].
  - unfold step. rewrite Hfr.
    rewrite (after_json_page _ _ _ _ _ (reply_text_object fields)). simpl.
    split; [apply last_snoc|apply lookup_insert_eq].
  - intros a Ha Htruthy. simpl. rewrite Ha. simpl. by rewrite Htruthy.
  - intros b Ha Hb Htruthy. simpl.
    rewrite (absent_or_falsy_read _ _ Ha), Hb. simpl. by rewrite Htruthy.
  - intros Ha Hb. simpl.
    by rewrite (absent_or_falsy_read _ _ Ha), (absent_or_falsy_read _ _ Hb).
Qed.

(** * Further properties of the script *)

(** ** Trimming, once more *)

Lemma trim_start_idem (s : jsstring) :
  trim_start (trim_start s) = trim_start s.
Proof.
  induction s as [|c s IH]; cbn [trim_start]; [done|].
  destruct (is_js_space c) eqn:Hc; [done|]. cbn [trim_start]. by rewrite Hc.
Qed.

Lemma trim_start_snoc (l : jsstring) (c : N) :
  is_js_space c = false -> exists m, trim_start (l ++ [c]) = m ++ [c].
Proof.
  intros Hc. induction l as [|x l IH]; cbn [app trim_start].
  - rewrite Hc. by exists [].
  - destruct (is_js_space x); [done|]. by exists (x :: l).
Qed.

(** Trimming a trimmed text changes nothing. *)
Lemma trim_idem (s : jsstring) : trim (trim s) = trim s.
Proof.
  unfold trim. destruct (trim_start s) as [|c t] eqn:Hs; [done|].
  pose proof (trim_start_head _ _ _ Hs) as Hc.
  destruct (trim_start_snoc (rev t) c Hc) as (m & Hm).
  cbn [rev]. rewrite Hm. rewrite rev_app_distr. cbn [rev app trim_start].
  rewrite Hc. cbn [rev]. rewrite rev_involutive.
  by rewrite <- Hm, trim_start_idem, Hm, rev_app_distr.
Qed.

(** ** Submitting again at once *)

Lemma sendMessage_twice (st : page) :
  run_task sendMessage (run_task sendMessage st) = run_task sendMessage st.
Proof.
  destruct (trim (input_value st)) as [|c rest] eqn:Htrim.
  - by rewrite !(sendMessage_blank st Htrim).
  - rewrite (sendMessage_page _ _ _ Htrim). by apply sendMessage_blank.
Qed.

(** X2: a submit that is repeated at once does nothing the second time,
    because the first one, if it sent anything, emptied the input (line 56):
    Enter after Enter, a click after a click and a click after Enter leave
    the page as the first submit left it. *)
Theorem repeated_submit_sends_once (st : page) :
  let enter := UserKeydown (js "Enter") in
  step enter (step enter st) = step enter st
  /\ step UserClicks (step UserClicks st) = step UserClicks st
  /\ step UserClicks (step enter st) = step enter st.
Proof.
  cbv zeta. unfold step. destruct (decide (js "Enter" = js "Enter")); [|done].
  split; [apply sendMessage_twice|]. split.
  - destruct (send_disabled st) eqn:Hoff; [by rewrite Hoff|].
    destruct (send_disabled (run_task sendMessage st)); [done|].
    apply sendMessage_twice.
  - destruct (send_disabled (run_task sendMessage st)); [done|].
    apply sendMessage_twice.
Qed.

(** ** What is sent *)

Lemma step_history (e : event) (st : page) :
  exists new, history (step e st) = history st ++ new
              /\ Forall proper_request new.
Proof.
  assert (Hsend : exists new,
             history (run_task sendMessage st) = history st ++ new
             /\ Forall proper_request new).
  { destruct (trim (input_value st)) as [|c rest] eqn:Htrim.
    - rewrite (sendMessage_blank st Htrim). exists []. by rewrite app_nil_r.
    - rewrite (sendMessage_page _ _ _ Htrim). eexists. split; [done|].
      repeat constructor. simpl. repeat split.
      exists (c :: rest). repeat split; [done|]. rewrite <- Htrim.
      apply trim_idem. }
  assert (Hsame : exists new, history st = history st ++ new
                              /\ Forall proper_request new).
  { exists []. by rewrite app_nil_r. }
  destruct e as [v| |key|tid|p status|p msg|p data|p msg]; unfold step.
  - done.
  - by destruct (send_disabled st).
  - by destruct (decide _).
  - destruct (timers st !! tid) as [[cb ms]|] eqn:Ht; [|done].
    destruct cb as [dots i|el v i p]; [by rewrite dots_tick_page|].
    destruct v as [| | | |s| |];
      try (rewrite reveal_tick_not_string; [done|by intros ?]).
    destruct (decide (length s <= S i)) as [Hlast|Hmore].
    + rewrite reveal_last_tick_page, resolve_page by done. cbn [frames].
      destruct (frames st !! p) as [[| |data botEl tel tint]|] eqn:Hp;
        try (eexists; split; [by cbn; rewrite <- !app_assoc|];
             by repeat constructor).
      destruct (source_note data) as [t|m] eqn:Hnote.
      * rewrite (after_reveal_page _ _ _ _ _ _ Hnote).
        eexists. split; [by cbn; rewrite <- !app_assoc|].
        by repeat constructor.
      * rewrite (after_reveal_page_throw _ _ _ _ _ _ Hnote).
        eexists. split; [by cbn; rewrite <- !app_assoc|].
        by repeat constructor.
    + rewrite reveal_tick_page by lia. eexists. split; [done|].
      by repeat constructor.
  - by destruct (frames st !! p) as [[text tel tint| |]|].
  - destruct (frames st !! p) as [[text tel tint| |]|] eqn:Hp; try done.
    rewrite after_rejection_page. eexists. split; [done|].
    by repeat constructor.
  - destruct (frames st !! p) as [[|tel tint|]|] eqn:Hp; try done.
    destruct (reply_text data) as [v|m] eqn:Hreply.
    + rewrite (after_json_page _ _ _ _ _ Hreply). eexists. split; [done|].
      by repeat constructor.
    + rewrite (after_json_page_throw _ _ _ _ _ Hreply).
      eexists. split; [done|]. by repeat constructor.
  - destruct (frames st !! p) as [[|tel tint|]|] eqn:Hp; try done.
    rewrite after_rejection_page. eexists. split; [done|].
    by repeat constructor.
Qed.

(** X3: whatever happens on the page, every request the script issues is a
    POST to [API_URL] with content type application/json whose body is
    [{message: t}], where [t] is not empty and has no white space left to
    trim: the widget never posts an empty or untrimmed message. *)
Theorem only_proper_requests (evs : list event) (st : page) :
  exists new, history (run evs st) = history st ++ new
              /\ Forall proper_request new.
Proof.
  induction evs as [|e evs IH] using rev_ind.
  - exists []. by rewrite app_nil_r.
  - destruct IH as (new & Hnew & Hok). rewrite run_snoc.
    destruct (step_history e (run evs st)) as (more & Hmore & Hok').
    exists (new ++ more). split; [by rewrite Hmore, Hnew, app_assoc|].
    by apply Forall_app.
Qed.

(** ** The typing indicator's dots *)

Lemma repeat_str_dot (n : nat) : repeat_str (js ".") n = replicate n 46%N.
Proof.
  unfold repeat_str. induction n as [|n IH]; [done|].
  cbn [replicate concat]. by rewrite IH.
Qed.

Lemma reveal_ticks_S (tid k : nat) (st : page) :
  reveal_ticks tid (S k) st = step (TimerFires tid) (reveal_ticks tid k st).
Proof. reflexivity. Qed.

Lemma dots_ticks (st : page) (tid dots i ms : nat) (e : element) (k : nat) :
  timers st !! tid = Some (Timer (DotsTick dots i) ms) ->
  dom st !! dots = Some e ->
  let st' := reveal_ticks tid k st in
  (exists e', dom st' !! dots = Some e')
  /\ timers st' !! tid = Some (Timer (DotsTick dots (i + k)) ms)
  /\ chat_box st' = chat_box st
  /\ frames st' = frames st
  /\ history st' = history st
  /\ send_disabled st' = send_disabled st.
Proof.
  intros Htimer Hdom. cbv zeta. induction k as [|k IH].
  - rewrite Nat.add_0_r. change (reveal_ticks tid 0 st) with st. eauto 10.
  - destruct IH as ((e' & He') & Ht & Hlog & Hfr & Hhist & Hoff).
    rewrite reveal_ticks_S.
    set (stk := reveal_ticks tid k st) in *.
    assert (Hstep : step (TimerFires tid) stk =
                    run_task (run_callback tid (Timer (DotsTick dots (i + k)) ms))
                      stk) by (unfold step; by rewrite Ht).
    rewrite Hstep, dots_tick_page.
    cbn [dom timers chat_box frames history send_disabled].
    rewrite lookup_alter_eq, He', lookup_insert_eq, Nat.add_succ_r.
    eauto 10.
Qed.

(** X4: while the typing indicator runs, each tick of its interval shows
    the next number of dots in the cycle 0, 1, 2, 3, 0, ...: after [k + 1]
    ticks of a timer that had made [i] ticks before, the [dots] span shows
    [(i + k) mod 4] dots, never more than three, and the ticks have touched
    nothing else of the log, the cycles in flight, the button or the
    effects recorded. *)
Theorem typing_dots_cycle
    (st : page) (tid dots i ms : nat) (e : element) (k : nat) :
  timers st !! tid = Some (Timer (DotsTick dots i) ms) ->
  dom st !! dots = Some e ->
  let st' := reveal_ticks tid (S k) st in
  innerText st' dots = replicate ((i + k) mod 4) 46%N
  /\ length (innerText st' dots) < 4
  /\ timers st' !! tid = Some (Timer (DotsTick dots (i + S k)) ms)
  /\ chat_box st' = chat_box st
  /\ frames st' = frames st
  /\ history st' = history st
  /\ send_disabled st' = send_disabled st.
Proof.
  intros Htimer Hdom st'.
  destruct (dots_ticks st tid dots i ms e k Htimer Hdom)
    as ((e' & He') & Ht & _).
  assert (Hshown : innerText st' dots = replicate ((i + k) mod 4) 46%N).
  { subst st'. rewrite reveal_ticks_S. unfold step.
    rewrite Ht, dots_tick_page.
    erewrite innerText_leaf;
      [|cbn [dom]; by rewrite lookup_alter_eq, He'|done].
    cbn [ownText with_innerText]. rewrite repeat_str_dot.
    apply rendered_solid. unfold solid.
    by induction ((i + k) mod 4) as [|n IH]. }
  split; [done|]. split.
  { rewrite Hshown, length_replicate. by apply Nat.mod_upper_bound. }
  destruct (dots_ticks st tid dots i ms e (S k) Htimer Hdom) as (_ & Hrest).
  exact Hrest.
Qed.

(** ** Replies that are not text, and bodies that are [null] *)

(** X7: when the reply extracted from the body is not a string (a number,
    [true], an array or an object that is truthy), the reveal never gets
    anywhere: [text.charAt] is not a function, so every tick of the reveal's
    interval throws before it changes anything.  The new bot entry stays
    empty, the timer stays active, the invocation stays suspended and the
    button stays as it was. *)
Theorem reveal_of_non_string_never_completes
    (st : page) (q tel tint : nat) (data v : jsval) :
  frames st !! q = Some (AwaitJson tel tint) ->
  reply_text data = Ok v ->
  (forall s, v <> JStr s) ->
  let st' := step (JsonResolves q data) st in
  let tid := next_timer st in
  (forall k, reveal_ticks tid k st' = st')
  /\ timers st' !! tid =
     Some (Timer (RevealTick (next_el st) v 0 (next_promise st)) 14)
  /\ dom st' !! next_el st = Some (Element (js "div") (js "message bot") [] [] [])
  /\ last (chat_box st') = Some (next_el st)
  /\ frames st' !! next_promise st =
     Some (AwaitReveal data (next_el st) tel tint)
  /\ send_disabled st' = send_disabled st.
Proof.
  intros Hfr Hreply Hv st' tid.
  assert (Hst' : st' = run_task (after_json data tel tint)
                         (set_frames (delete q) st)).
  { subst st'. unfold step. by rewrite Hfr. }
  clearbody st'.
  rewrite (after_json_page _ _ _ _ _ Hreply) in Hst'. cbn in Hst'.
  assert (Htimer : timers st' !! tid =
            Some (Timer (RevealTick (next_el st) v 0 (next_promise st)) 14)).
  { rewrite Hst'. cbn [timers]. apply lookup_insert_eq. }
  split.
  { induction k as [|k IH]; [done|].
    rewrite reveal_ticks_S, IH. unfold step. rewrite Htimer.
    by apply reveal_tick_not_string. }
  split; [done|]. rewrite Hst'. cbn [dom chat_box frames send_disabled].
  split; [apply lookup_insert_eq|]. split; [apply last_snoc|].
  split; [apply lookup_insert_eq|done].
Qed.

Lemma filter_ne_twice (x : nat) (l : list nat) :
  filter (.≠ x) (filter (.≠ x) l) = filter (.≠ x) l.
Proof. by apply list_filter_filter_l. Qed.

(** X8: a body that is the JSON value [null] parses, so the success path
    starts: on any page the widget can reach from a quiet one, the typing
    indicator is stopped and an empty bot entry appended; then reading
    [data.answer] throws, and the [catch] block appends the error entry
    after it.  The log thus gains two bot entries, the first empty; no
    reveal is started and the button is enabled again. *)
Theorem null_body_leaves_empty_entry_and_error
    (st0 : page) (evs : list event) (q tel tint : nat) :
  quiet st0 ->
  let st := run evs st0 in
  frames st !! q = Some (AwaitJson tel tint) ->
  let st' := step (JsonResolves q JNull) st in
  let n := next_el st in
  chat_box st' = filter (.≠ tel) (chat_box st) ++ [n; S n]
  /\ dom st' !! n = Some (Element (js "div") (js "message bot") [] [] [])
  /\ dom st' !! S n = Some (error_entry (null_read_message (js "answer")))
  /\ timers st' = delete tint (timers st)
  /\ next_timer st' = next_timer st
  /\ frames st' = delete q (frames st)
  /\ send_disabled st' = false.
Proof.
  intros Hquiet st Hfr st' n.
  pose proof (wf_typing_el _ _ _ _ _ (reachable_well_formed st0 evs Hquiet)
                _ _ Hfr) as Hel.
  fold st in Hel. cbn in Hel.
  subst st'. unfold step. rewrite Hfr.
  rewrite (after_json_page_throw JNull (null_read_message (js "answer")))
    by done.
  cbn [dom chat_box timers next_timer frames send_disabled set_frames
       next_el].
  split.
  { rewrite filter_app, filter_ne_twice, filter_cons_True by (subst n; lia).
    by rewrite <- app_assoc. }
  split.
  { rewrite lookup_insert_ne by (subst n; lia).
    rewrite lookup_fmap, lookup_insert_eq. done. }
  split; [apply lookup_insert_eq|].
  split; [apply delete_delete_eq|done].
Qed.

(** ** Typing indicator and reveal *)

(** X9: on any page the widget can reach from a quiet one, the reveal of
    a cycle and its typing indicator never run together: while a cycle
    awaits its reveal, its typing tick is not active; every active reveal
    timer resolves the promise of a cycle that is awaiting its reveal, whose
    typing tick is therefore off; and no two reveal timers serve the same
    cycle. *)
Theorem reveal_and_typing_tick_never_overlap (st0 : page) (evs : list event) :
  quiet st0 ->
  let st := run evs st0 in
  (forall p data botEl tel tint,
      frames st !! p = Some (AwaitReveal data botEl tel tint) ->
      timers st !! tint = None)
  /\ (forall tid t q,
      timers st !! tid = Some t -> reveal_promise (callback t) = Some q ->
      exists data botEl tel tint,
        frames st !! q = Some (AwaitReveal data botEl tel tint)
        /\ timers st !! tint = None)
  /\ (forall tid1 tid2 t1 t2 q,
      timers st !! tid1 = Some t1 -> timers st !! tid2 = Some t2 ->
      reveal_promise (callback t1) = Some q ->
      reveal_promise (callback t2) = Some q -> tid1 = tid2).
Proof.
  intros Hquiet st.
  pose proof (reachable_well_formed st0 evs Hquiet) as Hwf. fold st in Hwf.
  split; [|split].
  - intros p data botEl tel tint Hfr.
    apply (wf_stopped _ _ _ _ _ Hwf _ _ Hfr).
  - intros tid t q Ht Hq.
    destruct (wf_core_reveal_promise _ _ _ _ _ _ _ _ Hwf Ht Hq)
      as (_ & data & botEl & tel & tint & Hfr).
    exists data, botEl, tel, tint. split; [done|].
    apply (wf_stopped _ _ _ _ _ Hwf _ _ Hfr).
  - apply (wf_reveal _ _ _ _ _ Hwf).
Qed.

(** ** The end of a cycle *)

Lemma frames_moved_size (fs : gmap nat frame) (p np : nat) (fr fr' : frame) :
  fs !! p = Some fr -> fs !! np = None ->
  size (<[np := fr']> (delete p fs)) = size fs.
Proof.
  intros Hp Hnp.
  rewrite map_size_insert_None by (apply lookup_delete_None; by right).
  rewrite map_size_delete_Some by done.
  pose proof (map_size_ne_0_lookup_2 fs p (mk_is_Some _ _ Hp)). lia.
Qed.

(** X10: on any page the widget can reach from a quiet one, a task that
    ends a cycle (fewer invocations are suspended after it than before),
    by whichever path, leaves the send button enabled and its colour
    restored (lines 92-93). *)
Theorem end_of_cycle_enables_button
    (st0 : page) (evs : list event) (e : event) :
  quiet st0 ->
  let st := run evs st0 in
  size (frames (step e st)) < size (frames st) ->
  send_disabled (step e st) = false /\ send_bg (step e st) = [].
Proof.
  intros Hquiet st.
  pose proof (reachable_well_formed st0 evs Hquiet) as Hwf. fold st in Hwf.
  pose proof (reachable_next_promise_unawaited st0 evs Hquiet) as Hnew.
  fold st in Hnew. cbv zeta in Hnew.
  assert (Hsend : size (frames (run_task sendMessage st)) < size (frames st) ->
                  send_disabled (run_task sendMessage st) = false
                  /\ send_bg (run_task sendMessage st) = []).
  { destruct (trim (input_value st)) as [|c rest] eqn:Htrim.
    - rewrite (sendMessage_blank st Htrim). lia.
    - rewrite (sendMessage_page _ _ _ Htrim). cbn [frames].
      rewrite map_size_insert_None by done. lia. }
  destruct e as [v| |key|tid|p status|p msg|p data|p msg]; unfold step.
  - cbn. lia.
  - destruct (send_disabled st); [lia|done].
  - destruct (decide _); [done|lia].
  - destruct (timers st !! tid) as [[cb ms]|] eqn:Ht; [|lia].
    destruct cb as [dots i|el v i p]; [rewrite dots_tick_page; cbn; lia|].
    destruct v as [| | | |s| |];
      try (rewrite reveal_tick_not_string; [lia|by intros ?]).
    destruct (decide (length s <= S i)) as [Hlast|Hmore];
      [|rewrite reveal_tick_page by lia; cbn; lia].
    rewrite reveal_last_tick_page, resolve_page by done. cbn [frames].
    destruct (frames st !! p) as [[| |data botEl tel tint]|] eqn:Hp;
      try (cbn; lia).
    destruct (source_note data) as [t|m] eqn:Hnote.
    + by rewrite (after_reveal_page _ _ _ _ _ _ Hnote).
    + by rewrite (after_reveal_page_throw _ _ _ _ _ _ Hnote).
  - destruct (frames st !! p) as [[text tel tint| |]|] eqn:Hp; try lia.
    rewrite after_fetch_page. cbn [frames].
    rewrite (frames_moved_size _ _ _ _ _ Hp Hnew). lia.
  - destruct (frames st !! p) as [[text tel tint| |]|] eqn:Hp; try lia.
    by rewrite after_rejection_page.
  - destruct (frames st !! p) as [[|tel tint|]|] eqn:Hp; try lia.
    destruct (reply_text data) as [v|m] eqn:Hreply.
    + rewrite (after_json_page _ _ _ _ _ Hreply). cbn [frames].
      rewrite (frames_moved_size _ _ _ _ _ Hp Hnew). lia.
    + by rewrite (after_json_page_throw _ _ _ _ _ Hreply).
  - destruct (frames st !! p) as [[|tel tint|]|] eqn:Hp; try lia.
    by rewrite after_rejection_page.
Qed.

(** ** Whole cycles *)

Lemma filter_ne_fresh (m : nat) (l : list nat) :
  (forall x, x ∈ l -> x <> m) -> filter (.≠ m) l = l.
Proof.
  induction l as [|x l IH]; intros Hl; [done|].
  rewrite filter_cons_True by (apply Hl; left).
  rewrite IH; [done|]. intros y Hy. apply Hl. by right.
Qed.

(** A submit that gets through: Enter in the input, or a click on the
    enabled button. *)
Lemma submit_runs_sendMessage (submit : event) (st : page) :
  submit = UserKeydown (js "Enter")
  \/ (submit = UserClicks /\ send_disabled st = false) ->
  step submit st = run_task sendMessage st.
Proof.
  intros [->|[-> Hon]]; unfold step.
  - by destruct (decide _).
  - by rewrite Hon.
Qed.

(** The log after a cycle: the placeholder is gone again. *)
Lemma log_after_cycle (cb : list nat) (n : nat) (added : list nat) :
  (forall x, x ∈ cb -> x < n) ->
  filter (.≠ S n) (cb ++ [n; S n]) ++ added = cb ++ n :: added.
Proof.
  intros Hcb. rewrite filter_app, filter_ne_fresh.
  - rewrite filter_cons_True, filter_cons_False by lia.
    by rewrite <- app_assoc.
  - intros x Hx. specialize (Hcb x Hx). lia.
Qed.

(** X6: a whole failed cycle.  On a quiet page whose log holds existing
    elements and whose input is not blank, a submit followed by the
    rejection of its [fetch] with message [msg] leaves the log longer by
    exactly two entries, the user message with the trimmed text and the
    error entry for [msg]; the placeholder is gone, no timer is active, no
    invocation is suspended, the input is empty and the button is enabled
    with its colour restored. *)
Theorem failed_cycle (st0 : page) (submit : event) (msg : jsstring) :
  quiet st0 ->
  (forall x, x ∈ chat_box st0 -> x < next_el st0) ->
  trim (input_value st0) <> [] ->
  submit = UserKeydown (js "Enter")
  \/ (submit = UserClicks /\ send_disabled st0 = false) ->
  let n := next_el st0 in
  let st := run [submit; FetchRejects (next_promise st0) msg] st0 in
  chat_box st = chat_box st0 ++ [n; n + 3]
  /\ dom st !! n =
     Some (Element (js "div") (js "message user") (trim (input_value st0)) [] [])
  /\ dom st !! (n + 3) = Some (error_entry msg)
  /\ frames st = ∅
  /\ timers st = ∅
  /\ input_value st = []
  /\ send_disabled st = false
  /\ send_bg st = [].
Proof.
  intros [Hfs Hts] Hlog Htrim Hsubmit n st.
  destruct (trim (input_value st0)) as [|c rest] eqn:Hinput; [done|].
  subst st. unfold run. cbn [fold_left].
  rewrite (submit_runs_sendMessage _ _ Hsubmit).
  rewrite (sendMessage_page _ _ _ Hinput). cbv zeta.
  unfold step. cbn [frames]. rewrite lookup_insert_eq.
  rewrite after_rejection_page.
  cbn [dom chat_box frames timers input_value send_disabled send_bg next_el
       set_frames].
  fold n. replace (n + 3) with (S (S (S n))) by lia.
  split; [by apply log_after_cycle|]. split.
  { rewrite lookup_insert_ne, lookup_fmap by lia.
    rewrite !lookup_insert_ne by lia. by rewrite lookup_insert_eq. }
  split; [apply lookup_insert_eq|].
  split; [by rewrite delete_insert_eq, Hfs, delete_empty|].
  split; [by rewrite delete_insert_eq, Hts, delete_empty|done].
Qed.

Lemma run_ticks (tid k : nat) (st : page) :
  run (replicate k (TimerFires tid)) st = reveal_ticks tid k st.
Proof.
  revert st. induction k as [|k IH]; intros st; [done|].
  cbn [replicate]. unfold run in *. cbn [fold_left]. rewrite IH.
  unfold reveal_ticks. symmetry. apply Nat.iter_succ_r.
Qed.

(** The page in the middle of a reveal: all but the last tick. *)
Lemma reveal_ticks_page (st : page) (d : gmap nat element)
    (ts : gmap nat timer) (el tid p ms : nat) (e : element) (s : jsstring)
    (k : nat) :
  dom st = <[el := with_innerText [] e]> d ->
  timers st = <[tid := Timer (RevealTick el (JStr s) 0 p) ms]> ts ->
  reads_back s ->
  k < length s ->
  reveal_ticks tid k st =
  Page (<[el := with_innerText (take k s) e]> d) (next_el st) (chat_box st)
    (input_value st) (send_disabled st) (send_bg st)
    (<[tid := Timer (RevealTick el (JStr s) k p) ms]> ts) (next_timer st)
    (frames st) (next_promise st) (history st ++ replicate k ActScroll).
Proof.
  intros Hdom Htimers Hread. induction k as [|k IH]; intros Hk.
  - change (reveal_ticks tid 0 st) with st.
    change (replicate 0 ActScroll) with (@nil action).
    rewrite app_nil_r. change (take 0 s) with (@nil N).
    rewrite <- Hdom, <- Htimers. by destruct st.
  - rewrite reveal_ticks_S, IH by lia. unfold step. cbn [timers].
    rewrite lookup_insert_eq, reveal_tick_page by done.
    cbn [dom next_el chat_box input_value send_disabled send_bg timers
         next_timer frames next_promise history].
    erewrite innerText_leaf; [|cbn [dom]; apply lookup_insert_eq|done].
    cbn [ownText with_innerText]. rewrite Hread by lia.
    rewrite alter_insert_eq, insert_insert_eq, take_charAt.
    by rewrite replicate_S_end, app_assoc.
Qed.

(** What the bot entry reads once the reveal and the note are done: its
    text, a line break and the note, as they are laid out. *)
Lemma innerText_bot_entry (st : page) (el br note : nat)
    (e : element) (s t : jsstring) :
  dom st !! el = Some e -> ownText e = s -> kids e = [br; note] ->
  dom st !! br = Some (Element (js "br") [] [] [] []) ->
  dom st !! note = Some (Element (js "small") [] t [] []) ->
  innerText st el = rendered (s ++ [10%N] ++ t).
Proof.
  intros Hel Hs Hkids Hbr Hnote. unfold innerText. f_equal.
  destruct (size (dom st)) as [|fuel] eqn:Hsize.
  { apply map_size_empty_inv in Hsize. by rewrite Hsize, lookup_empty in Hel. }
  cbn [inner_text]. rewrite Hel, Hs, Hkids. cbn [map]. rewrite Hbr, Hnote.
  cbn [tagName ownText kids map concat].
  destruct (decide (js "br" = js "br")) as [_|Hne]; [|done].
  destruct (decide (js "small" = js "br")) as [Heq|_]; [discriminate Heq|].
  by rewrite !app_nil_r.
Qed.

Lemma reply_text_truthy (data v : jsval) :
  reply_text data = Ok v -> truthy v = true.
Proof.
  unfold reply_text.
  destruct (read_field data (js "answer")) as [a|]; [|done].
  destruct (truthy a) eqn:Ha; [by intros [= <-]|].
  destruct (read_field data (js "response")) as [b|]; [|done].
  destruct (truthy b) eqn:Hb; by intros [= <-].
Qed.

(** Ticks of a reveal whose text is not a string leave the page alone. *)
Lemma non_string_ticks_idle (st : page) (tid el i p ms : nat) (v : jsval)
    (k : nat) :
  timers st !! tid = Some (Timer (RevealTick el v i p) ms) ->
  (forall s, v <> JStr s) ->
  reveal_ticks tid k st = st.
Proof.
  intros Ht Hv. induction k as [|k IH]; [done|].
  rewrite reveal_ticks_S, IH. unfold step. rewrite Ht.
  by apply reveal_tick_not_string.
Qed.

(** C10, amended: the selection is by truthiness.  When [answer] is present
    but falsy, the reply handed to the reveal on the new bot entry is
    [response] if that is truthy and the literal "No reply" otherwise; and
    whatever the parsed body is, the reply handed to the reveal is never
    falsy.  What is handed over is displayed when it is a string: after as
    many ticks as it is long the bot entry holds it, and it is not empty
    (for a string every prefix of which is read back as it was stored).  A
    truthy reply that is not a string is never displayed: the bot entry
    stays empty whatever the number of ticks. *)
Theorem reply_selected_by_truthiness (st : page) (q tel tint : nat) :
  frames st !! q = Some (AwaitJson tel tint) ->
  let handed data v :=
    timers (step (JsonResolves q data) st) !! next_timer st =
    Some (Timer (RevealTick (next_el st) v 0 (next_promise st)) 14) in
  let bot_entry data k :=
    dom (reveal_ticks (next_timer st) k (step (JsonResolves q data) st))
      !! next_el st in
  (forall fields a,
      own_field fields (js "answer") = Some a -> truthy a = false ->
      (forall b, own_field fields (js "response") = Some b ->
                 truthy b = true -> handed (JObj fields) b)
      /\ (absent_or_falsy fields (js "response") ->
          handed (JObj fields) (JStr (js "No reply"))))
  /\ (forall data v, reply_text data = Ok v -> handed data v /\ truthy v = true)
  /\ (forall data s,
        reply_text data = Ok (JStr s) -> reads_back s ->
        s <> []
        /\ bot_entry data 0 =
           Some (Element (js "div") (js "message bot") [] [] [])
        /\ exists e, bot_entry data (length s) = Some e /\ ownText e = s)
  /\ (forall data v,
        reply_text data = Ok v -> (forall s, v <> JStr s) ->
        forall k, bot_entry data k =
                  Some (Element (js "div") (js "message bot") [] [] [])).
Proof.
  intros Hfr handed bot_entry.
  assert (Hstep : forall data v, reply_text data = Ok v ->
            step (JsonResolves q data) st =
            run_task (after_json data tel tint) (set_frames (delete q) st)).
  { intros data v _. unfold step. by rewrite Hfr. }
  assert (Hhanded : forall data v, reply_text data = Ok v -> handed data v).
  { intros data v Hv. subst handed. cbv beta.
    rewrite (Hstep _ _ Hv), (after_json_page _ _ _ _ _ Hv).
    cbn [timers next_timer next_el next_promise set_frames].
    apply lookup_insert_eq. }
  split; [|split; [|split]].
  - intros fields a Ha Hfalsy. split.
    + intros b Hb Htruthy. apply Hhanded.
      rewrite reply_text_object, Ha, Hb. simpl. by rewrite Hfalsy, Htruthy.
    + intros Hresp. apply Hhanded.
      rewrite reply_text_object, Ha. simpl. rewrite Hfalsy.
      by rewrite (absent_or_falsy_read _ _ Hresp).
  - intros data v Hv. split; [by apply Hhanded|by eapply reply_text_truthy].
  - intros data s Hs Hread.
    pose proof (reply_text_truthy _ _ Hs) as Hne.
    destruct s as [|ch s']; [done|]. clear Hne.
    set (s := ch :: s') in *. split; [done|].
    subst bot_entry. cbv beta.
    rewrite (Hstep _ _ Hs), (after_json_page _ _ _ _ _ Hs).
    cbn [dom next_el chat_box input_value send_disabled send_bg timers
         next_timer frames next_promise history set_frames].
    split; [apply lookup_insert_eq|].
    change (length s) with (S (length s')). rewrite reveal_ticks_S.
    erewrite reveal_ticks_page
      with (e := Element (js "div") (js "message bot") [] [] []);
      [|reflexivity|reflexivity|done|subst s; cbn [length]; lia].
    unfold step. cbn [timers]. rewrite lookup_insert_eq.
    rewrite reveal_last_tick_page by done. rewrite resolve_page.
    cbn [frames]. rewrite lookup_insert_eq.
    erewrite innerText_leaf; [|cbn [dom]; apply lookup_insert_eq|done].
    cbn [ownText with_innerText].
    rewrite Hread by (subst s; cbn [length]; lia).
    rewrite take_charAt, take_ge by done.
    destruct (source_note data) as [note|m] eqn:Hnote.
    + rewrite (after_reveal_page _ _ _ _ _ _ Hnote).
      cbn [dom next_el set_frames record]. eexists. split.
      * rewrite !lookup_alter_eq, !lookup_insert_ne by lia.
        by rewrite lookup_alter_eq, lookup_insert_eq.
      * done.
    + rewrite (after_reveal_page_throw _ _ _ _ _ _ Hnote).
      cbn [dom next_el set_frames record]. eexists. split.
      * rewrite lookup_insert_ne, lookup_fmap, lookup_insert_ne by lia.
        by rewrite lookup_alter_eq, lookup_insert_eq.
      * done.
  - intros data v Hv Hnot k. subst bot_entry. cbv beta.
    rewrite (non_string_ticks_idle _ _ _ _ _ _ _ k (Hhanded _ _ Hv) Hnot).
    rewrite (Hstep _ _ Hv), (after_json_page _ _ _ _ _ Hv).
    cbn [dom]. apply lookup_insert_eq.
Qed.

(** X5: a whole successful cycle.  On a quiet page whose log holds existing
    elements and whose input is not blank, take a submit, a response of any
    status, a body whose reply is the text [s] and whose source note is
    [note], and then as many ticks of the reveal as [s] is long, where every
    prefix of [s] is read back as it was stored (as it is for a reply without
    white space).  The log is then longer by exactly two entries, the user
    message with the trimmed text and a bot entry that holds [s], a line
    break and the note, and that reads as these three are laid out; the
    placeholder is gone, no timer is active, no invocation is suspended, the
    input is empty and the button is enabled with its colour restored. *)
Theorem successful_cycle
    (st0 : page) (submit : event) (status : nat) (data : jsval)
    (s note : jsstring) :
  quiet st0 ->
  (forall x, x ∈ chat_box st0 -> x < next_el st0) ->
  trim (input_value st0) <> [] ->
  submit = UserKeydown (js "Enter")
  \/ (submit = UserClicks /\ send_disabled st0 = false) ->
  reply_text data = Ok (JStr s) ->
  reads_back s ->
  source_note data = Ok note ->
  let n := next_el st0 in
  let p := next_promise st0 in
  let st :=
    run ([submit; FetchResolves p status; JsonResolves (S p) data]
           ++ replicate (length s) (TimerFires (S (next_timer st0)))) st0 in
  chat_box st = chat_box st0 ++ [n; n + 3]
  /\ dom st !! n =
     Some (Element (js "div") (js "message user") (trim (input_value st0)) [] [])
  /\ dom st !! (n + 3) =
     Some (Element (js "div") (js "message bot") s [n + 5; n + 4] [])
  /\ dom st !! (n + 4) = Some (Element (js "small") [] note [] [])
  /\ dom st !! (n + 5) = Some (Element (js "br") [] [] [] [])
  /\ innerText st (n + 3) = rendered (s ++ [10%N] ++ note)
  /\ frames st = ∅
  /\ timers st = ∅
  /\ input_value st = []
  /\ send_disabled st = false
  /\ send_bg st = [].
Proof.
  intros [Hfs Hts] Hlog Htrim Hsubmit Hreply Hread Hnote n p st.
  destruct (trim (input_value st0)) as [|c rest] eqn:Hinput; [done|].
  pose proof (reply_text_truthy _ _ Hreply) as Hs.
  destruct s as [|ch s']; [done|]. clear Hs.
  set (s := ch :: s') in *.
  eassert (Hst : st = _).
  { subst st. rewrite run_app, run_ticks.
    unfold run. cbn [fold_left].
    rewrite (submit_runs_sendMessage _ _ Hsubmit).
    rewrite (sendMessage_page _ _ _ Hinput). cbv zeta. fold n p.
    erewrite step_FetchResolves by (cbn [frames]; apply lookup_insert_eq).
    cbn [dom next_el chat_box input_value send_disabled send_bg timers
         next_timer frames next_promise history].
    unfold step at 1. cbn [frames]. rewrite lookup_insert_eq.
    rewrite (after_json_page _ _ _ _ _ Hreply).
    cbn [dom next_el chat_box input_value send_disabled send_bg timers
         next_timer frames next_promise history set_frames].
    change (length s) with (S (length s')). rewrite reveal_ticks_S.
    erewrite reveal_ticks_page
      with (e := Element (js "div") (js "message bot") [] [] []);
      [|reflexivity|reflexivity|done|subst s; cbn [length]; lia].
    unfold step. cbn [timers]. rewrite lookup_insert_eq.
    rewrite reveal_last_tick_page by done. rewrite resolve_page.
    cbn [frames]. rewrite lookup_insert_eq.
    rewrite (after_reveal_page _ _ _ _ _ _ Hnote).
    cbn [dom next_el chat_box input_value send_disabled send_bg timers
         next_timer frames next_promise history set_frames record].
    erewrite innerText_leaf; [|cbn [dom]; apply lookup_insert_eq|done].
    cbn [ownText with_innerText].
    rewrite Hread by (subst s; cbn [length]; lia).
    rewrite take_charAt, take_ge by done.
    reflexivity. }
  clearbody st. subst st.
  cbn [dom chat_box input_value send_disabled send_bg timers frames].
  replace (n + 3) with (S (S (S n))) by lia.
  replace (n + 4) with (S (S (S (S n)))) by lia.
  replace (n + 5) with (S (S (S (S (S n))))) by lia.
  set (bot := S (S (S n))).
  assert (Hbot : forall (d : gmap nat element) (shown : jsstring),
             alter (with_child (S bot)) bot
               (alter (with_child (S (S bot))) bot
                  (<[S (S bot) := Element (js "br") [] [] [] []]>
                     (<[S bot := Element (js "small") [] note [] []]>
                        (alter (with_innerText s) bot
                           (<[bot := with_innerText shown
                                       (Element (js "div") (js "message bot")
                                          [] [] [])]> d))))) !! bot =
             Some (Element (js "div") (js "message bot") s
                     [S (S bot); S bot] [])).
  { intros d shown. rewrite !lookup_alter_eq, !lookup_insert_ne by lia.
    by rewrite lookup_alter_eq, lookup_insert_eq. }
  split; [by apply log_after_cycle|]. split.
  { rewrite !lookup_alter_ne, !lookup_insert_ne by (subst bot; lia).
    rewrite lookup_alter_ne, lookup_insert_ne by (subst bot; lia).
    rewrite lookup_fmap, !lookup_insert_ne by lia.
    by rewrite lookup_insert_eq. }
  split; [apply Hbot|].
  assert (Hsmall : forall d : gmap nat element,
             alter (with_child (S bot)) bot
               (alter (with_child (S (S bot))) bot
                  (<[S (S bot) := Element (js "br") [] [] [] []]>
                     (<[S bot := Element (js "small") [] note [] []]> d)))
               !! S bot = Some (Element (js "small") [] note [] [])).
  { intros d. rewrite !lookup_alter_ne, lookup_insert_ne by lia.
    apply lookup_insert_eq. }
  assert (Hbr : forall d : gmap nat element,
             alter (with_child (S bot)) bot
               (alter (with_child (S (S bot))) bot
                  (<[S (S bot) := Element (js "br") [] [] [] []]> d))
               !! S (S bot) = Some (Element (js "br") [] [] [] [])).
  { intros d. rewrite !lookup_alter_ne by lia. apply lookup_insert_eq. }
  split; [apply Hsmall|]. split; [apply Hbr|]. split.
  { eapply innerText_bot_entry; cbn [dom];
      [apply Hbot|done|done|apply Hbr|apply Hsmall]. }
  split; [by rewrite !delete_insert_eq, Hfs, !delete_empty|].
  split; [by rewrite !delete_insert_eq, Hts, !delete_empty|done].
Qed.

(** ** The click path *)

(** X1: what disabling the button achieves.  From a quiet page with the
    button enabled, as long as Enter is never pressed in the input, at most
    one cycle is in flight at any time, the button is disabled exactly
    while one is, and a click while one is in flight changes nothing. *)
Theorem click_guard_one_cycle_at_a_time (st0 : page) (evs : list event) :
  quiet st0 -> send_disabled st0 = false ->
  Forall (fun e => e <> UserKeydown (js "Enter")) evs ->
  let st := run evs st0 in
  size (frames st) <= 1
  /\ (send_disabled st = true <-> frames st <> ∅)
  /\ (frames st <> ∅ -> step UserClicks st = st).
Proof.
  intros Hquiet Hon Hevs st.
  destruct (clicks_alone_one_at_a_time st0 evs Hquiet Hon Hevs)
    as [[Hoff Hidle]|[Hoff (p & fr & Hone)]]; fold st in Hoff.
  - fold st in Hidle. rewrite Hidle, Hoff, map_size_empty.
    split; [lia|]. split; [split; [done|by intros []]|by intros []].
  - fold st in Hone. rewrite Hone, Hoff, map_size_singleton.
    split; [lia|]. split.
    + split; [intros _|done]. intros Hempty.
      apply (f_equal (fun m => m !! p)) in Hempty.
      by rewrite lookup_singleton_eq, lookup_empty in Hempty.
    + intros _. unfold step. by rewrite Hoff.
Qed.

(** ** The source note *)

(** X11: the note of line 80 is chosen by truthiness of [source].  It is
    empty when [source] is absent or falsy; for a non-empty string it is the
    string in parentheses after a space; an object is rendered as
    "[object Object]", unless it has a field of its own named [toString], in
    which case building the note throws. *)
Theorem source_note_cases (fields : list (jsstring * jsval)) :
  (absent_or_falsy fields (js "source") -> source_note (JObj fields) = Ok [])
  /\ (forall s, own_field fields (js "source") = Some (JStr s) -> s <> [] ->
        source_note (JObj fields) = Ok (js " (" ++ s ++ js ")"))
  /\ (forall fs, own_field fields (js "source") = Some (JObj fs) ->
        own_field fs (js "toString") = None ->
        source_note (JObj fields) = Ok (js " ([object Object])"))
  /\ (forall fs v, own_field fields (js "source") = Some (JObj fs) ->
        own_field fs (js "toString") = Some v ->
        source_note (JObj fields) = Throw to_primitive_message).
Proof.
  unfold source_note. cbn [read_field]. split; [|split; [|split]].
  - intros Habsent. by rewrite (absent_or_falsy_read _ _ Habsent).
  - intros s -> Hs. cbn -[js]. by destruct s.
  - intros fs -> Hto. cbn -[js]. by rewrite Hto.
  - intros fs v -> Hto. cbn -[js]. by rewrite Hto.
Qed.

(** X12: when building the note throws, the reveal has already run.  Its
    last tick then ends the cycle through the [catch] block: the error entry
    is appended at the end of the log, after the bot entry, which keeps what
    that tick stored in it (the text the getter read back from it, followed
    by the last character) and gets neither [br] nor note; the reveal's
    timer is cancelled, the invocation is gone and the button is enabled. *)
Theorem failing_note_adds_error_after_reply
    (st : page) (tid el i p ms : nat) (s m : jsstring) (data : jsval)
    (botEl tel tint : nat) :
  timers st !! tid = Some (Timer (RevealTick el (JStr s) i p) ms) ->
  length s <= S i ->
  frames st !! p = Some (AwaitReveal data botEl tel tint) ->
  source_note data = Throw m ->
  let st' := step (TimerFires tid) st in
  chat_box st' = filter (.≠ tel) (chat_box st) ++ [S (next_el st)]
  /\ dom st' !! S (next_el st) = Some (error_entry m)
  /\ (forall e, dom st !! el = Some e -> el < next_el st ->
                dom st' !! el =
                Some (with_innerText (innerText st el ++ charAt s i) e))
  /\ timers st' !! tid = None
  /\ frames st' = delete p (frames st)
  /\ send_disabled st' = false
  /\ send_bg st' = [].
Proof.
  intros Ht Hlast Hfr Hnote. cbv zeta. unfold step.
  rewrite Ht, reveal_last_tick_page, resolve_page by done.
  cbn [frames]. rewrite Hfr, (after_reveal_page_throw _ _ _ _ _ _ Hnote).
  cbn [dom next_el chat_box input_value send_disabled send_bg timers
       next_timer frames next_promise history set_frames record].
  split; [done|]. split; [apply lookup_insert_eq|]. split.
  { intros e He Hlt.
    rewrite lookup_insert_ne, lookup_fmap, lookup_insert_ne by lia.
    by rewrite lookup_alter_eq, He. }
  split; [|done].
  apply lookup_delete_None. right. apply lookup_delete_eq.
Qed.

(** ** The log holds distinct, existing elements *)

Ltac dom_grows :=
  let x := fresh "x" in
  let Hx := fresh "Hx" in
  intros x Hx;
  repeat first
    [ exact Hx
    | apply lookup_alter_is_Some
    | apply lookup_insert_is_Some'; right
    | rewrite lookup_fmap; apply fmap_is_Some ].

Lemma sound_log_extend (d d' : gmap nat element) (ne ne' : nat)
    (cb kept added : list nat) :
  sound_log d ne cb ->
  NoDup kept -> (forall x, x ∈ kept -> x ∈ cb) ->
  ne <= ne' -> (forall x, is_Some (d !! x) -> is_Some (d' !! x)) ->
  NoDup added ->
  (forall x, x ∈ added -> ne <= x < ne' /\ is_Some (d' !! x)) ->
  sound_log d' ne' (kept ++ added).
Proof.
  intros [Hdup Hcb] Hkept Hsub Hle Hgrow Hnew Hadded. split.
  - apply NoDup_app. split; [done|]. split; [|done].
    intros x Hx Hx'. destruct (Hcb x (Hsub x Hx)) as [Hlt _].
    destruct (Hadded x Hx') as [[Hge _] _]. lia.
  - intros x [Hx|Hx]%elem_of_app.
    + destruct (Hcb x (Hsub x Hx)) as [Hlt Hsome]. split; [lia|auto].
    + destruct (Hadded x Hx) as [[_ Hlt] Hsome]. done.
Qed.

Lemma sound_log_filter (d d' : gmap nat element) (ne ne' tel : nat)
    (cb added : list nat) :
  sound_log d ne cb ->
  ne <= ne' -> (forall x, is_Some (d !! x) -> is_Some (d' !! x)) ->
  NoDup added ->
  (forall x, x ∈ added -> ne <= x < ne' /\ is_Some (d' !! x)) ->
  sound_log d' ne' (filter (.≠ tel) cb ++ added).
Proof.
  intros Hlog. eapply sound_log_extend; [exact Hlog| |].
  - apply NoDup_filter, Hlog.
  - by intros x [_ Hx]%list_elem_of_filter.
Qed.

Lemma sound_log_same (d d' : gmap nat element) (ne ne' : nat)
    (cb : list nat) :
  sound_log d ne cb ->
  ne <= ne' -> (forall x, is_Some (d !! x) -> is_Some (d' !! x)) ->
  sound_log d' ne' cb.
Proof.
  intros Hlog Hle Hgrow. rewrite <- (app_nil_r cb).
  eapply sound_log_extend; eauto; [apply Hlog|apply NoDup_nil_2|].
  by intros x Hx%elem_of_nil.
Qed.

Ltac one_new_entry :=
  let x := fresh "x" in
  let Hx := fresh "Hx" in
  intros x Hx%list_elem_of_singleton; subst x;
  split; [lia|]; rewrite lookup_insert_eq; by eexists.

Lemma log_sound_sendMessage (st : page) :
  log_sound st -> log_sound (run_task sendMessage st).
Proof.
  intros Hlog. destruct (trim (input_value st)) as [|c rest] eqn:Htrim.
  { by rewrite (sendMessage_blank st Htrim). }
  rewrite (sendMessage_page _ _ _ Htrim). unfold log_sound. cbn.
  eapply sound_log_extend; [exact Hlog|apply Hlog|done|lia|dom_grows| |].
  - apply NoDup_cons. split; [|apply NoDup_singleton].
    intros Hin%list_elem_of_singleton. lia.
  - intros x [->|Hx%list_elem_of_singleton]%elem_of_cons; [|subst x].
    + split; [lia|]. rewrite !lookup_insert_ne by lia.
      rewrite lookup_insert_eq. by eexists.
    + split; [lia|]. rewrite lookup_insert_ne by lia.
      rewrite lookup_insert_eq. by eexists.
Qed.

Lemma log_sound_after_rejection (st : page) (tel tint : nat) (msg : jsstring) :
  log_sound st -> log_sound (run_task (after_rejection tel tint msg) st).
Proof.
  intros Hlog. rewrite after_rejection_page. unfold log_sound. cbn.
  eapply sound_log_filter;
    [exact Hlog|lia|dom_grows|apply NoDup_singleton|one_new_entry].
Qed.

Lemma step_log_sound (e : event) (st : page) :
  log_sound st -> log_sound (step e st).
Proof.
  intros Hlog.
  destruct e as [v| |key|tid|p status|p msg|p data|p msg]; unfold step.
  - done.
  - destruct (send_disabled st); [done|]. by apply log_sound_sendMessage.
  - destruct (decide _); [|done]. by apply log_sound_sendMessage.
  - destruct (timers st !! tid) as [[cb ms]|] eqn:Ht; [|done].
    destruct cb as [dots i|el v i p].
    { rewrite dots_tick_page. unfold log_sound. cbn.
      eapply sound_log_same; [exact Hlog|lia|dom_grows]. }
    destruct v as [| | | |s| |];
      try (rewrite reveal_tick_not_string; [done|by intros ?]).
    destruct (decide (length s <= S i)) as [Hlast|Hmore].
    + rewrite reveal_last_tick_page, resolve_page by done. cbn [frames].
      destruct (frames st !! p) as [[| |data botEl tel tint]|] eqn:Hp;
        try (unfold log_sound; cbn;
             eapply sound_log_same; [exact Hlog|lia|dom_grows]).
      destruct (source_note data) as [t|m] eqn:Hnote.
      * rewrite (after_reveal_page _ _ _ _ _ _ Hnote). unfold log_sound. cbn.
        eapply sound_log_same; [exact Hlog|lia|dom_grows].
      * rewrite (after_reveal_page_throw _ _ _ _ _ _ Hnote).
        unfold log_sound. cbn.
        eapply sound_log_filter;
          [exact Hlog|lia|dom_grows|apply NoDup_singleton|one_new_entry].
    + rewrite reveal_tick_page by lia. unfold log_sound. cbn.
      eapply sound_log_same; [exact Hlog|lia|dom_grows].
  - by destruct (frames st !! p) as [[text tel tint| |]|].
  - destruct (frames st !! p) as [[text tel tint| |]|] eqn:Hp; try done.
    by apply (log_sound_after_rejection (set_frames (delete p) st)).
  - destruct (frames st !! p) as [[|tel tint|]|] eqn:Hp; try done.
    assert (Hbot : sound_log
              (<[next_el st := Element (js "div") (js "message bot") [] [] []]>
                 (without_child tel <$> dom st))
              (S (next_el st))
              (filter (.≠ tel) (chat_box st) ++ [next_el st])).
    { eapply sound_log_filter;
        [exact Hlog|lia|dom_grows|apply NoDup_singleton|one_new_entry]. }
    destruct (reply_text data) as [v|m] eqn:Hreply.
    + by rewrite (after_json_page _ _ _ _ _ Hreply).
    + rewrite (after_json_page_throw _ _ _ _ _ Hreply). unfold log_sound. cbn.
      eapply sound_log_filter;
        [exact Hbot|lia|dom_grows|apply NoDup_singleton|one_new_entry].
  - destruct (frames st !! p) as [[|tel tint|]|] eqn:Hp; try done.
    by apply (log_sound_after_rejection (set_frames (delete p) st)).
Qed.

(** X13: the log stays sound.  If no entry of the log occurs twice and
    every entry is an element created earlier, then this is still so after
    any sequence of events: placeholders are removed and new entries are
    appended, but the script never appends an element that is already in
    the log and never leaves a dangling entry. *)
Theorem log_stays_sound (evs : list event) (st : page) :
  log_sound st -> log_sound (run evs st).
Proof.
  revert st. induction evs as [|e evs IH]; intros st Hlog; [done|].
  cbn. by apply IH, step_log_sound.
Qed.

(** ** The input while a reply is awaited *)

Lemma step_background_input (e : event) (st : page) :
  background e -> input_value (step e st) = input_value st.
Proof.
  intros He.
  destruct e as [v| |key|tid|p status|p msg|p data|p msg];
    try done; unfold step.
  - destruct (timers st !! tid) as [[cb ms]|] eqn:Ht; [|done].
    destruct cb as [dots i|el v i p]; [by rewrite dots_tick_page|].
    destruct v as [| | | |s| |];
      try (rewrite reveal_tick_not_string; [done|by intros ?]).
    destruct (decide (length s <= S i)) as [Hlast|Hmore];
      [|by rewrite reveal_tick_page by lia].
    rewrite reveal_last_tick_page, resolve_page by done. cbn [frames].
    destruct (frames st !! p) as [[| |data botEl tel tint]|] eqn:Hp;
      try done.
    destruct (source_note data) as [t|m] eqn:Hnote.
    + by rewrite (after_reveal_page _ _ _ _ _ _ Hnote).
    + by rewrite (after_reveal_page_throw _ _ _ _ _ _ Hnote).
  - by destruct (frames st !! p) as [[text tel tint| |]|].
  - by destruct (frames st !! p) as [[text tel tint| |]|].
  - destruct (frames st !! p) as [[|tel tint|]|]; try done.
    destruct (reply_text data) as [v|m] eqn:Hreply.
    + by rewrite (after_json_page _ _ _ _ _ Hreply).
    + by rewrite (after_json_page_throw _ _ _ _ _ Hreply).
  - by destruct (frames st !! p) as [[|tel tint|]|].
Qed.

(** X14: only a submit empties the input (line 56).  Whatever timers fire
    and whatever replies or failures arrive, on whichever path a cycle
    continues or ends, the text in the input stays as it is: what the user
    types while waiting is not lost. *)
Theorem background_events_keep_input (evs : list event) (st : page) :
  Forall background evs -> input_value (run evs st) = input_value st.
Proof.
  induction evs as [|e evs IH] using rev_ind; intros Hevs; [done|].
  apply Forall_app in Hevs as [Hevs He]. rewrite run_snoc.
  rewrite step_background_input by (by inversion He). auto.
Qed.

End Properties.

(** * The properties on concrete pages *)

Section Examples.
#[local] Existing Instance sample_engine.

Ltac conjuncts := repeat match goal with |- _ /\ _ => split end.
Ltac evaluate := vm_compute; reflexivity.

Lemma blank_input_is_noop_witness :
  let st := set_input_value (js "  ") initial in
  trim (input_value st) = []
  /\ run_task sendMessage st = st
  /\ step UserClicks st = st
  /\ step (UserKeydown (js "Enter")) st = st.
Proof.
  intros st. split; [reflexivity|].
  apply (blank_input_is_noop st). reflexivity.
Defined.

(** ** Enter while a cycle is pending *)

(** C1 on the failing input: "hi" is sent by a click and, before any reply,
    "yo" is typed.  The button is disabled and a click does nothing; Enter
    nevertheless runs [sendMessage], which issues a second request while
    the first is still awaited. *)
Theorem enter_starts_second_exchange_while_pending :
  let st := run [UserTypes (js "hi"); UserClicks; UserTypes (js "yo")] initial in
  let st' := step (UserKeydown (js "Enter")) st in
  send_disabled st = true
  /\ frames st !! 0 = Some (AwaitFetch (js "hi") 1 0)
  /\ step UserClicks st = st
  /\ frames st' !! 0 = Some (AwaitFetch (js "hi") 1 0)
  /\ frames st' !! 1 = Some (AwaitFetch (js "yo") 4 1)
  /\ exists req,
       payload req = JObj [(js "message", JStr (js "yo"))]
       /\ history st' = history st ++
            [ActSendDisabled true; ActAppend 3; ActScroll; ActAppend 4;
             ActSetInterval 1; ActScroll; ActFetch 1 req].
Proof.
  cbv zeta. conjuncts; try evaluate.
  exists (Request API_URL (js "POST") (js "application/json")
            (JObj [(js "message", JStr (js "yo"))])).
  split; evaluate.
Qed.

(** C6 on the failing input: with two cycles in flight, the end of the
    first (here by a failure) enables the button while the second is still
    awaiting its reply. *)
Theorem button_enabled_while_cycle_pending :
  let st :=
    run [UserTypes (js "hi"); UserClicks; UserTypes (js "yo");
         UserKeydown (js "Enter"); FetchRejects 0 (js "timeout")] initial in
  send_disabled st = false
  /\ frames st !! 1 = Some (AwaitFetch (js "yo") 4 1)
  /\ timers st !! 1 = Some (Timer (DotsTick 5 0) 400).
Proof. cbv zeta. conjuncts; evaluate. Qed.

(** ** Failures *)

Lemma failure_appends_one_error_entry_witness :
  frames page_awaiting_fetch !! 0 = Some (AwaitFetch (js "hi") 1 0)
  /\ chat_box (step (FetchRejects 0 (js "timeout")) page_awaiting_fetch) = [0; 3]
  /\ dom (step (FetchRejects 0 (js "timeout")) page_awaiting_fetch) !! 3 =
     Some (Element (js "div") (js "message bot")
             (error_prefix ++ js "timeout") [] []).
Proof.
  split; [reflexivity|].
  apply (proj1 (failure_appends_one_error_entry
                  page_awaiting_fetch 0 (js "timeout")) (js "hi") 1 0).
  reflexivity.
Defined.

Lemma transport_failure_takes_failure_path_witness :
  frames page_awaiting_fetch !! 0 = Some (AwaitFetch (js "hi") 1 0)
  /\ failure_outcome page_awaiting_fetch 1 0 (js "Unexpected token")
       (run [FetchResolves 0 200; JsonRejects 1 (js "Unexpected token")]
          page_awaiting_fetch)
  /\ reply_text JNull = Throw (null_read_message (js "answer"))
  /\ dom (run [FetchResolves 0 500; JsonResolves 1 JNull] page_awaiting_fetch)
       !! 4 = Some (error_entry (null_read_message (js "answer"))).
Proof.
  pose proof (transport_failure_takes_failure_path
                page_awaiting_fetch 0 (js "hi") 1 0 eq_refl)
    as (_ & Hbody & _ & _ & Hnull).
  split; [reflexivity|]. split; [exact (Hbody 200 (js "Unexpected token"))|].
  split; [reflexivity|].
  exact (proj1 (proj2 (proj2 (proj2
           (Hnull 500 JNull (null_read_message (js "answer")) eq_refl))))).
Defined.

(** C2 fails on a response of status 500 whose body is the JSON object
    [{answer: "A"}]: the [catch] block does not run (no error entry is
    shown, the button stays disabled) and the reveal of "A" starts. *)
Lemma non_2xx_json_body_takes_success_path :
  let st' :=
    run [FetchResolves 0 500; JsonResolves 1 (JObj [(js "answer", JStr (js "A"))])]
      page_awaiting_fetch in
  send_disabled st' = true
  /\ timers st' !! 1 = Some (Timer (RevealTick 3 (JStr (js "A")) 0 2) 14)
  /\ ~ error_shown st'
  /\ ~ non_2xx_takes_failure_path.
Proof.
  cbv zeta. split; [evaluate|]. split; [evaluate|]. split.
  - intros (el & msg & Hlast & Hdom). vm_compute in Hlast.
    injection Hlast as <-. vm_compute in Hdom. discriminate.
  - intros Hclaim.
    destruct (Hclaim page_awaiting_fetch 0 (js "hi") 1 0 500
                (JObj [(js "answer", JStr (js "A"))]) eq_refl)
      as (msg & _ & _ & _ & _ & Henabled); [lia|].
    vm_compute in Henabled. discriminate.
Qed.

(** ** Reply extraction *)

Lemma reply_selected_by_truthiness_witness :
  let data := JObj [(js "answer", JStr []); (js "response", JStr (js "B"))] in
  let st' := step (JsonResolves 1 data) page_awaiting_body in
  frames page_awaiting_body !! 1 = Some (AwaitJson 1 0)
  /\ reply_text data = Ok (JStr (js "B"))
  /\ reads_back (js "B")
  /\ timers st' !! 1 = Some (Timer (RevealTick 3 (JStr (js "B")) 0 2) 14)
  /\ exists e, dom (reveal_ticks 1 1 st') !! 3 = Some e /\ ownText e = js "B".
Proof.
  intros data st'.
  assert (Hread : reads_back (js "B")) by (by apply solid_reads_back).
  pose proof (reply_selected_by_truthiness page_awaiting_body 1 1 0 eq_refl)
    as (Hfalsy & _ & Hshown & _).
  split; [reflexivity|]. split; [reflexivity|]. split; [exact Hread|]. split.
  - exact (proj1 (Hfalsy [(js "answer", JStr []); (js "response", JStr (js "B"))]
                    (JStr []) eq_refl eq_refl)
             (JStr (js "B")) eq_refl eq_refl).
  - exact (proj2 (proj2 (Hshown data (js "B") eq_refl Hread))).
Defined.

(** C10 fails on [{answer: "", response: 5}]: the reply is taken from
    [response], but it is never displayed.  The ticks of the reveal throw
    and leave the page as it is, so the bot entry shows the empty string,
    whatever the number of ticks.  And on [{answer: ""}] the literal
    "No reply" is handed to the reveal, but where the layout drops a space
    at the end of a line, what the bot entry ends up with is "Noreply". *)
Lemma truthy_number_reply_is_never_displayed :
  (let data := JObj [(js "answer", JStr []); (js "response", JNum 5%Z)] in
   let st' := step (JsonResolves 1 data) page_awaiting_body in
   reply_text data = Ok (JNum 5%Z)
   /\ timers st' !! 1 = Some (Timer (RevealTick 3 (JNum 5%Z) 0 2) 14)
   /\ last (chat_box st') = Some 3
   /\ (forall k, reveal_ticks 1 k st' = st')
   /\ innerText st' 3 = []
   /\ truthy (JStr (innerText st' 3)) = false)
  /\ (let data := JObj [(js "answer", JStr [])] in
      let st' := step (JsonResolves 1 data) page_awaiting_body in
      timers st' !! 1 = Some (Timer (RevealTick 3 (JStr (js "No reply")) 0 2) 14)
      /\ dom (reveal_ticks 1 3 st') !! 3 =
         Some (Element (js "div") (js "message bot") (js "No ") [] [])
      /\ dom (reveal_ticks 1 4 st') !! 3 =
         Some (Element (js "div") (js "message bot") (js "Nor") [] [])
      /\ dom (reveal_ticks 1 8 st') !! 3 =
         Some (Element (js "div") (js "message bot") (js "Noreply") [5; 4] [])
      /\ timers (reveal_ticks 1 8 st') = ∅).
Proof.
  cbv zeta. conjuncts; try evaluate.
  intros k. eapply non_string_ticks_idle; [evaluate|discriminate].
Qed.

Lemma reply_extraction_fallback_chain_witness :
  let fields := [(js "answer", JStr (js "A")); (js "response", JStr (js "B"))] in
  frames page_awaiting_body !! 1 = Some (AwaitJson 1 0)
  /\ exists v, reply_text (JObj fields) = Ok v /\ v = JStr (js "A").
Proof.
  intros fields. split; [reflexivity|].
  destruct (reply_extraction_fallback_chain page_awaiting_body 1 1 0 fields
              eq_refl) as (v & Hv & _ & Hanswer & _).
  exists v. split; [exact Hv|].
  apply Hanswer; reflexivity.
Defined.

(** C3 fails on [{answer: "", response: "B"}]: [answer] is present, yet
    the reply is "B". *)
Lemma present_but_empty_answer_is_skipped :
  let fields := [(js "answer", JStr []); (js "response", JStr (js "B"))] in
  own_field fields (js "answer") = Some (JStr [])
  /\ reply_by_presence fields = JStr []
  /\ reply_text (JObj fields) = Ok (JStr (js "B"))
  /\ reply_text (JObj fields) <> Ok (reply_by_presence fields).
Proof. cbv zeta. conjuncts; try evaluate. discriminate. Qed.

(** ** The reveal *)



(** ** Order of the log and the typing indicator *)

Lemma user_message_precedes_exchange_witness :
  let st := run [UserTypes (js " hi ")] initial in
  quiet initial
  /\ trim (input_value st) <> []
  /\ chat_box (run_task sendMessage st) = [0; 1]
  /\ dom (run_task sendMessage st) !! 0 =
     Some (Element (js "div") (js "message user") (js "hi") [] []).
Proof.
  intros st.
  assert (Hinput : trim (input_value st) <> []) by (vm_compute; discriminate).
  split; [split; reflexivity|]. split; [exact Hinput|].
  destruct (user_message_precedes_exchange initial [UserTypes (js " hi ")]
              (conj eq_refl eq_refl) Hinput)
    as (_ & Hlog & Hdom & _).
  split; [exact Hlog|exact Hdom].
Defined.

Lemma typing_tick_cancelled_before_bot_message_witness :
  quiet initial
  /\ frames page_awaiting_body !! 1 = Some (AwaitJson 1 0)
  /\ stops_typing_first page_awaiting_body 1 0
       (step (JsonResolves 1 (JObj [(js "answer", JStr (js "A"))]))
          page_awaiting_body).
Proof.
  split; [split; reflexivity|]. split; [reflexivity|].
  apply (proj1 (typing_tick_cancelled_before_bot_message initial
                  [UserTypes (js " hi "); UserClicks; FetchResolves 0 200]
                  (conj eq_refl eq_refl))).
  reflexivity.
Defined.


(** ** Further properties *)

Lemma click_guard_one_cycle_at_a_time_witness :
  let evs := [UserTypes (js "hi"); UserClicks; UserClicks] in
  quiet initial
  /\ send_disabled initial = false
  /\ Forall (fun e => e <> UserKeydown (js "Enter")) evs
  /\ size (frames (run evs initial)) <= 1.
Proof.
  intros evs.
  assert (Hquiet : quiet initial) by (split; reflexivity).
  assert (Hevs : Forall (fun e => e <> UserKeydown (js "Enter")) evs)
    by (repeat constructor; discriminate).
  split; [exact Hquiet|]. split; [reflexivity|]. split; [exact Hevs|].
  exact (proj1 (click_guard_one_cycle_at_a_time initial evs Hquiet eq_refl Hevs)).
Defined.

Lemma typing_dots_cycle_witness :
  timers page_awaiting_fetch !! 0 = Some (Timer (DotsTick 2 0) 400)
  /\ dom page_awaiting_fetch !! 2 =
     Some (Element (js "span") [] [] [] (js "6px"))
  /\ innerText (reveal_ticks 0 2 page_awaiting_fetch) 2 = js ".".
Proof.
  split; [reflexivity|]. split; [reflexivity|].
  exact (proj1 (typing_dots_cycle page_awaiting_fetch 0 2 0 400
                  (Element (js "span") [] [] [] (js "6px")) 1
                  eq_refl eq_refl)).
Defined.

Lemma successful_cycle_witness :
  let st0 := set_input_value (js "hi") initial in
  let data := JObj [(js "answer", JStr (js "Ok")); (js "source", JStr (js "kb"))] in
  let st :=
    run ([UserKeydown (js "Enter"); FetchResolves 0 200; JsonResolves 1 data]
           ++ replicate 2 (TimerFires 1)) st0 in
  quiet st0
  /\ (forall x, x ∈ chat_box st0 -> x < next_el st0)
  /\ trim (input_value st0) <> []
  /\ reply_text data = Ok (JStr (js "Ok"))
  /\ reads_back (js "Ok")
  /\ source_note data = Ok (js " (kb)")
  /\ chat_box st = [0; 3]
  /\ dom st !! 3 = Some (Element (js "div") (js "message bot") (js "Ok") [5; 4] [])
  /\ dom st !! 4 = Some (Element (js "small") [] (js " (kb)") [] [])
  /\ innerText st 3 = js "Ok" ++ [10%N] ++ js "(kb)".
Proof.
  intros st0 data st.
  assert (Hquiet : quiet st0) by (split; reflexivity).
  assert (Hlog : forall x, x ∈ chat_box st0 -> x < next_el st0)
    by (intros x Hx; by apply elem_of_nil in Hx).
  assert (Hinput : trim (input_value st0) <> []) by (vm_compute; discriminate).
  assert (Hread : reads_back (js "Ok")) by (by apply solid_reads_back).
  destruct (successful_cycle st0 (UserKeydown (js "Enter")) 200 data
              (js "Ok") (js " (kb)") Hquiet Hlog Hinput (or_introl eq_refl)
              eq_refl Hread eq_refl)
    as (Hbox & _ & Hbot & Hnote & _ & Hshown & _).
  split; [exact Hquiet|]. split; [exact Hlog|]. split; [exact Hinput|].
  split; [reflexivity|]. split; [exact Hread|]. split; [reflexivity|].
  split; [exact Hbox|]. split; [exact Hbot|]. split; [exact Hnote|exact Hshown].
Defined.

Lemma failed_cycle_witness :
  let st0 := set_input_value (js "hi") initial in
  let st := run [UserClicks; FetchRejects 0 (js "timeout")] st0 in
  quiet st0
  /\ (forall x, x ∈ chat_box st0 -> x < next_el st0)
  /\ trim (input_value st0) <> []
  /\ send_disabled st0 = false
  /\ chat_box st = [0; 3]
  /\ dom st !! 3 = Some (error_entry (js "timeout")).
Proof.
  intros st0 st.
  assert (Hquiet : quiet st0) by (split; reflexivity).
  assert (Hlog : forall x, x ∈ chat_box st0 -> x < next_el st0)
    by (intros x Hx; by apply elem_of_nil in Hx).
  assert (Hinput : trim (input_value st0) <> []) by (vm_compute; discriminate).
  destruct (failed_cycle st0 UserClicks (js "timeout") Hquiet Hlog Hinput
              (or_intror (conj eq_refl eq_refl))) as (Hbox & _ & Herr & _).
  split; [exact Hquiet|]. split; [exact Hlog|]. split; [exact Hinput|].
  split; [reflexivity|]. split; [exact Hbox|exact Herr].
Defined.

Lemma reveal_of_non_string_never_completes_witness :
  let data := JObj [(js "answer", JNum 5%Z)] in
  let st' := step (JsonResolves 1 data) page_awaiting_body in
  frames page_awaiting_body !! 1 = Some (AwaitJson 1 0)
  /\ reply_text data = Ok (JNum 5%Z)
  /\ (forall s, JNum 5%Z <> JStr s)
  /\ reveal_ticks 1 3 st' = st'.
Proof.
  intros data st'.
  assert (Hv : forall s : jsstring, JNum 5%Z <> JStr s) by discriminate.
  split; [reflexivity|]. split; [reflexivity|]. split; [exact Hv|].
  exact (proj1 (reveal_of_non_string_never_completes page_awaiting_body
                  1 1 0 data (JNum 5%Z) eq_refl eq_refl Hv) 3).
Defined.

Lemma null_body_leaves_empty_entry_and_error_witness :
  let evs := [UserTypes (js " hi "); UserClicks; FetchResolves 0 200] in
  quiet initial
  /\ frames (run evs initial) !! 1 = Some (AwaitJson 1 0)
  /\ chat_box (step (JsonResolves 1 JNull) (run evs initial)) = [0; 3; 4].
Proof.
  intros evs.
  assert (Hquiet : quiet initial) by (split; reflexivity).
  split; [exact Hquiet|]. split; [reflexivity|].
  exact (proj1 (null_body_leaves_empty_entry_and_error initial evs 1 1 0
                  Hquiet eq_refl)).
Defined.

Lemma reveal_and_typing_tick_never_overlap_witness :
  let data := JObj [(js "answer", JStr (js "A"))] in
  let evs := [UserTypes (js " hi "); UserClicks; FetchResolves 0 200;
              JsonResolves 1 data] in
  quiet initial
  /\ frames (run evs initial) !! 2 = Some (AwaitReveal data 3 1 0)
  /\ timers (run evs initial) !! 0 = None.
Proof.
  intros data evs.
  assert (Hquiet : quiet initial) by (split; reflexivity).
  split; [exact Hquiet|]. split; [reflexivity|].
  exact (proj1 (reveal_and_typing_tick_never_overlap initial evs Hquiet)
           2 data 3 1 0 eq_refl).
Defined.

Lemma end_of_cycle_enables_button_witness :
  let evs := [UserTypes (js " hi "); UserClicks] in
  let e := FetchRejects 0 (js "timeout") in
  quiet initial
  /\ size (frames (step e (run evs initial))) < size (frames (run evs initial))
  /\ send_disabled (step e (run evs initial)) = false.
Proof.
  intros evs e.
  assert (Hquiet : quiet initial) by (split; reflexivity).
  assert (Hless : size (frames (step e (run evs initial)))
                  < size (frames (run evs initial)))
    by (vm_compute; lia).
  split; [exact Hquiet|]. split; [exact Hless|].
  exact (proj1 (end_of_cycle_enables_button initial evs e Hquiet Hless)).
Defined.

Lemma source_note_cases_witness :
  let fields := [(js "answer", JStr (js "A")); (js "source", JStr (js "kb"))] in
  own_field fields (js "source") = Some (JStr (js "kb"))
  /\ js "kb" <> []
  /\ source_note (JObj fields) = Ok (js " (kb)").
Proof.
  intros fields.
  assert (Hs : js "kb" <> []) by discriminate.
  split; [reflexivity|]. split; [exact Hs|].
  exact (proj1 (proj2 (source_note_cases fields)) (js "kb") eq_refl Hs).
Defined.

Lemma failing_note_adds_error_after_reply_witness :
  let data := JObj [(js "answer", JStr (js "A"));
                    (js "source", JObj [(js "toString", JNull)])] in
  let st := run [FetchResolves 0 200; JsonResolves 1 data] page_awaiting_fetch in
  timers st !! 1 = Some (Timer (RevealTick 3 (JStr (js "A")) 0 2) 14)
  /\ length (js "A") <= 1
  /\ frames st !! 2 = Some (AwaitReveal data 3 1 0)
  /\ source_note data = Throw to_primitive_message
  /\ chat_box (step (TimerFires 1) st) = [0; 3; 5]
  /\ dom (step (TimerFires 1) st) !! 5 = Some (error_entry to_primitive_message)
  /\ dom (step (TimerFires 1) st) !! 3 =
     Some (Element (js "div") (js "message bot") (js "A") [] []).
Proof.
  intros data st.
  assert (Hlen : length (js "A") <= 1) by (vm_compute; lia).
  destruct (failing_note_adds_error_after_reply st 1 3 0 2 14 (js "A")
              to_primitive_message data 3 1 0 eq_refl Hlen eq_refl eq_refl)
    as (Hbox & Herr & Hbot & _).
  split; [reflexivity|]. split; [exact Hlen|]. split; [reflexivity|].
  split; [reflexivity|]. split; [exact Hbox|]. split; [exact Herr|].
  exact (Hbot (Element (js "div") (js "message bot") [] [] []) eq_refl
           (le_n 4)).
Defined.

Lemma log_stays_sound_witness :
  log_sound initial
  /\ log_sound (run [UserTypes (js " hi "); UserClicks] initial).
Proof.
  assert (Hlog : log_sound initial).
  { split; [apply NoDup_nil_2|]. intros x Hx. by apply elem_of_nil in Hx. }
  split; [exact Hlog|].
  exact (log_stays_sound [UserTypes (js " hi "); UserClicks] initial Hlog).
Defined.

Lemma background_events_keep_input_witness :
  let evs := [FetchResolves 0 200; TimerFires 0] in
  let st := step (UserTypes (js "next")) page_awaiting_fetch in
  Forall background evs
  /\ input_value (run evs st) = js "next".
Proof.
  intros evs st.
  assert (Hevs : Forall background evs) by (repeat constructor).
  split; [exact Hevs|].
  exact (background_events_keep_input evs st Hevs).
Defined.

End Examples.
